(** * InstaAutoDM comment-check cron job: a shallow embedding of [index.js]

    The job loads the active automations, obtains a valid access token for
    the owning Instagram account, fetches the new comments of the monitored
    posts and, for every comment that matches the trigger keyword, replies
    and sends a direct message, logging each attempt in the store.

    The embedding follows the source function by function.  The store (the
    MongoDB collections), the clock, the id generator and the remote Graph
    API are effects: the engine runs in a state-and-exception monad over
    the store contents, and the answers of the outside world are read from
    an environment indexed by the number of effects performed so far, so
    that every call may answer differently and every store operation may
    fail.  The state also records, as a trace, the remote calls made and
    the writes done.

    Conventions.  Dates are time values, milliseconds since the epoch,
    within the range of the [Date] type; the local time zone of the server
    is part of the environment.  A time to live is a whole number of
    seconds.  Identifiers, tokens and texts are strings.  A field that a
    document may lack is an [option]; a query on such a field matches by
    equality (the driver sends [undefined] as [null], and [null] matches a
    missing field).  The fields
    [text] of a comment and [triggerKeyword] and [message] of an automation
    are taken to be present.  A thrown value is the string that
    [String(error)] gives. *)

From Stdlib Require Import String Ascii List ZArith Lia Bool Arith.
From Stdlib Require Import RelationClasses.
Import ListNotations.
Local Open Scope string_scope.
Local Open Scope Z_scope.

(** ** Documents of the store *)

Module Account.
Record t := mk {
  _id : string;
  instagramId : string;
  username : string;
  accessToken : string;
  expiresAt : option Z;
  lastTokenRefresh : option Z
}.
End Account.

Module Automation.
Record t := mk {
  _id : string;
  instagramAccountId : string;
  postId : option string;
  active : bool;
  triggerKeyword : string;
  rateLimit : option Z;
  replyToComments : bool;
  commentReply : option string;
  useOpeningMessage : bool;
  openingMessage : option string;
  buttonText : option string;
  message : string;
  addBranding : bool;
  brandingMessage : option string;
  lastChecked : option Z;
  lastTriggered : option Z;
  totalDMsSent : Z
}.
End Automation.

Module Post.
Record t := mk {
  _id : string;
  instagramAccountId : string;
  instagramId : string
}.
End Post.

(** A comment as [getPostComments] hands it to the engine. *)
Module Comment.
Record t := mk {
  id : string;
  text : string;
  username : option string;
  timestamp : string
}.
End Comment.

(** A comment as the Graph API returns it: the author is in [username] or,
    failing that, in [from.username]. *)
Module RawComment.
Record t := mk {
  id : string;
  text : string;
  username : option string;
  from_username : option string;
  timestamp : string
}.
End RawComment.

Inductive Status := sent | failed.
Inductive Kind := opening | direct.

(** A document of the [directMessages] collection.  The records of failed
    attempts carry an [error] and no [type]. *)
Module DirectMessage.
Record t := mk {
  _id : string;
  automationId : string;
  recipientUsername : option string;
  commentId : string;
  message : option string;
  type : option Kind;
  status : Status;
  error : option string;
  sentAt : Z
}.
End DirectMessage.

(** A document of the [commentReplies] collection. *)
Module CommentReply.
Record t := mk {
  _id : string;
  automationId : string;
  commentId : string;
  username : option string;
  reply : option string;
  status : Status;
  sentAt : Z
}.
End CommentReply.

Record Store := mkStore {
  instagramAccounts : list Account.t;
  automations : list Automation.t;
  posts : list Post.t;
  directMessages : list DirectMessage.t;
  commentReplies : list CommentReply.t
}.

(** ** The outside world *)

(** What a [fetch] followed by [response.json()] can come to: the call or
    the decoding throws ([e] is the thrown value as a string), the response
    is not [ok] ([message] is [errorData.error?.message ||
    response.statusText]), or it is [ok] with a body. *)
Inductive Response (A : Type) :=
| Rejected (e : string)
| NotOk (message : string)
| Ok (body : A).
Arguments Rejected {A} e.
Arguments NotOk {A} message.
Arguments Ok {A} body.

(** The quick reply of an opening message: its title and its payload. *)
Definition QuickReply := (string * string)%type.

Record Env := mkEnv {
  (** [String.prototype.toLowerCase] of the runtime *)
  toLowerCase : string -> string;
  (** [new Date()] *)
  clock : nat -> Z;
  (** the offset of the local time zone of the server, in milliseconds, at a
      time value that is either UTC ([true]) or local: [LocalTZA(t, isUTC)]
      of the language *)
  localTZA : Z -> bool -> Z;
  (** [new ObjectId().toString()] *)
  objectId : nat -> string;
  (** whether the store operation issued at this index succeeds, and the
      error it throws otherwise *)
  store_up : nat -> bool;
  store_error : nat -> string;
  (** GET graph.instagram.com/me (token) *)
  me : nat -> string -> Response unit;
  (** GET graph.instagram.com/refresh_access_token (token): the new
      [access_token] and [expires_in] *)
  refresh_access_token : nat -> string -> Response (string * Z);
  (** GET /{postId}/comments (token, post, since) *)
  comments : nat -> string -> string -> Z -> Response (list RawComment.t);
  (** POST /{commentId}/replies (token, comment, message) *)
  replies : nat -> string -> string -> string -> Response unit;
  (** GET /ig_username_search (token, q): the ids of [data], none when
      [data] is missing *)
  ig_username_search : nat -> string -> option string -> Response (list string);
  (** POST /{accountId}/messages (token, account, recipient id, text,
      quick reply) *)
  messages : nat -> string -> string -> string -> string -> option QuickReply
             -> Response unit
}.

(** ** What the engine did: remote calls and store writes, oldest first *)

Inductive Event :=
| CallMe (token : string)
| CallRefresh (token : string)
| CallComments (token postId : string) (since : Z)
| CallReplies (token commentId text : string)
| CallUsernameSearch (token : string) (q : option string)
| CallMessages (token accountId recipientId text : string)
               (quick : option QuickReply)
| UpdateAccount (id token : string) (expiresAt lastTokenRefresh : Z)
| UpdateStats (id : string) (lastTriggered : Z)
| UpdateLastChecked (id : string) (lastChecked : Z)
| InsertDirectMessage (r : DirectMessage.t)
| InsertCommentReply (r : CommentReply.t).

(** ** Machine state *)

(** [next] is the index of the next effect; [frame] holds the two number
    parameters [totalProcessed] and [totalSent] of the running
    [processPostComments] activation, which the callee updates in place (its
    own copies: JavaScript passes numbers by value). *)
Record State := mkState {
  next : nat;
  db : Store;
  trace : list Event;
  frame : Z * Z
}.

Inductive Outcome (A : Type) :=
| Return (a : A)
| Throw (e : string).
Arguments Return {A} a.
Arguments Throw {A} e.

Definition M (A : Type) := State -> Outcome A * State.

Definition ret {A} (a : A) : M A := fun s => (Return a, s).

Definition throw {A} (e : string) : M A := fun s => (Throw e, s).

Definition bind {A B} (m : M A) (k : A -> M B) : M B :=
  fun s => match m s with
           | (Return a, s') => k a s'
           | (Throw e, s') => (Throw e, s')
           end.

(** [try { m } catch (error) { h error }]: what [m] did before it threw
    stays done. *)
Definition try_catch {A} (m : M A) (h : string -> M A) : M A :=
  fun s => match m s with
           | (Return a, s') => (Return a, s')
           | (Throw e, s') => h e s'
           end.

(** [try { m } finally { f }] *)
Definition finally {A} (m : M A) (f : M unit) : M A :=
  fun s => match m s with
           | (r, s') => match f s' with
                        | (Return _, s'') => (r, s'')
                        | (Throw e, s'') => (Throw e, s'')
                        end
           end.

Declare Scope engine_scope.
Delimit Scope engine_scope with engine.
Notation "x <- c1 ;; c2" := (bind c1 (fun x => c2))
  (at level 61, c1 at next level, right associativity) : engine_scope.
Notation "c1 ;; c2" := (bind c1 (fun _ => c2))
  (at level 61, right associativity) : engine_scope.
Local Open Scope engine_scope.

(** [for (const x of l) { body x }] *)
Fixpoint for_of {A} (l : list A) (body : A -> M unit) : M unit :=
  match l with
  | [] => ret tt
  | x :: l' => body x ;; for_of l' body
  end.

Definition tick : M nat :=
  fun s => (Return (next s), mkState (S (next s)) (db s) (trace s) (frame s)).

Definition emit (e : Event) : M unit :=
  fun s => (Return tt, mkState (next s) (db s) (trace s ++ [e]) (frame s)).

Definition get_db : M Store := fun s => (Return (db s), s).

Definition put_db (d : Store) : M unit :=
  fun s => (Return tt, mkState (next s) d (trace s) (frame s)).

Definition get_frame : M (Z * Z) := fun s => (Return (frame s), s).

Definition put_frame (f : Z * Z) : M unit :=
  fun s => (Return tt, mkState (next s) (db s) (trace s) f).

(** ** JavaScript operators *)

(** [a || b] on a string that may be missing: the empty string is falsy. *)
Definition or_else (a : option string) (b : string) : string :=
  match a with
  | Some s => if String.eqb s EmptyString then b else s
  | None => b
  end.

(** The value of a string that may be missing, when it is truthy: [!a] holds
    of a missing value and of the empty string. *)
Definition truthy (a : option string) : option string :=
  match a with
  | Some s => if String.eqb s EmptyString then None else Some s
  | None => None
  end.

(** [a || b] on a number that may be missing: zero is falsy. *)
Definition or_num (a : option Z) (b : Z) : Z :=
  match a with
  | Some n => if n =? 0 then b else n
  | None => b
  end.

(** A value that may be [undefined] inside a template literal. *)
Definition template (a : option string) : string :=
  match a with
  | Some s => s
  | None => "undefined"
  end.

(** [s.includes(t)] *)
Fixpoint includes (s t : string) : bool :=
  if String.prefix t s then true
  else match s with
       | EmptyString => false
       | String _ s' => includes s' t
       end.

Definition option_eqb (a b : option string) : bool :=
  match a, b with
  | Some x, Some y => String.eqb x y
  | None, None => true
  | _, _ => false
  end.

Definition nl : string := String (ascii_of_nat 10) EmptyString.

(** [a || b] where both may be missing. *)
Definition or_opt (a b : option string) : option string :=
  match a with
  | Some s => if String.eqb s EmptyString then b else Some s
  | None => b
  end.

(** ** Dates *)

(** The abstract operations of the [Date] type on time values. *)
Definition msPerDay : Z := 86400000.
Definition msPerHour : Z := 3600000.
Definition msPerMinute : Z := 60000.
Definition msPerSecond : Z := 1000.

Definition Day (t : Z) : Z := t / msPerDay.
Definition HourFromTime (t : Z) : Z := (t / msPerHour) mod 24.
Definition MinFromTime (t : Z) : Z := (t / msPerMinute) mod 60.
Definition SecFromTime (t : Z) : Z := (t / msPerSecond) mod 60.
Definition msFromTime (t : Z) : Z := t mod msPerSecond.

Definition MakeTime (hour min sec ms : Z) : Z :=
  hour * msPerHour + min * msPerMinute + sec * msPerSecond + ms.

Definition MakeDate (day time : Z) : Z := day * msPerDay + time.

(** ** Store updates *)

(** [updateOne] changes the first document that matches. *)
Fixpoint update_first {A} (p : A -> bool) (f : A -> A) (l : list A) : list A :=
  match l with
  | [] => []
  | x :: l' => if p x then f x :: l' else x :: update_first p f l'
  end.

Definition set_token (token : string) (expiresAt lastTokenRefresh : Z)
    (a : Account.t) : Account.t :=
  Account.mk (Account._id a) (Account.instagramId a) (Account.username a)
    token (Some expiresAt) (Some lastTokenRefresh).

Definition set_accessToken (token : string) (a : Account.t) : Account.t :=
  Account.mk (Account._id a) (Account.instagramId a) (Account.username a)
    token (Account.expiresAt a) (Account.lastTokenRefresh a).

Definition set_lastChecked (d : Z) (a : Automation.t) : Automation.t :=
  Automation.mk (Automation._id a) (Automation.instagramAccountId a)
    (Automation.postId a) (Automation.active a) (Automation.triggerKeyword a)
    (Automation.rateLimit a) (Automation.replyToComments a)
    (Automation.commentReply a) (Automation.useOpeningMessage a)
    (Automation.openingMessage a) (Automation.buttonText a)
    (Automation.message a) (Automation.addBranding a)
    (Automation.brandingMessage a) (Some d) (Automation.lastTriggered a)
    (Automation.totalDMsSent a).

Definition bump_stats (d : Z) (a : Automation.t) : Automation.t :=
  Automation.mk (Automation._id a) (Automation.instagramAccountId a)
    (Automation.postId a) (Automation.active a) (Automation.triggerKeyword a)
    (Automation.rateLimit a) (Automation.replyToComments a)
    (Automation.commentReply a) (Automation.useOpeningMessage a)
    (Automation.openingMessage a) (Automation.buttonText a)
    (Automation.message a) (Automation.addBranding a)
    (Automation.brandingMessage a) (Automation.lastChecked a) (Some d)
    (Automation.totalDMsSent a + 1).

Definition with_accounts (l : list Account.t) (d : Store) : Store :=
  mkStore l (automations d) (posts d) (directMessages d) (commentReplies d).

Definition with_automations (l : list Automation.t) (d : Store) : Store :=
  mkStore (instagramAccounts d) l (posts d) (directMessages d)
    (commentReplies d).

Definition with_directMessages (l : list DirectMessage.t) (d : Store) : Store :=
  mkStore (instagramAccounts d) (automations d) (posts d) l (commentReplies d).

Definition with_commentReplies (l : list CommentReply.t) (d : Store) : Store :=
  mkStore (instagramAccounts d) (automations d) (posts d) (directMessages d) l.

(** The filter of the dedup query: [{ automationId, recipientUsername }]. *)
Definition dm_for (automationId : string) (recipient : option string)
    (r : DirectMessage.t) : bool :=
  String.eqb (DirectMessage.automationId r) automationId
  && option_eqb (DirectMessage.recipientUsername r) recipient.

Definition is_sent (st : Status) : bool :=
  match st with
  | sent => true
  | failed => false
  end.

(** The filter of the rate-limit query:
    [{ automationId, sentAt: { $gte: oneHourAgo }, status: "sent" }]. *)
Definition recent_sent (automationId : string) (oneHourAgo : Z)
    (r : DirectMessage.t) : bool :=
  String.eqb (DirectMessage.automationId r) automationId
  && (oneHourAgo <=? DirectMessage.sentAt r)
  && is_sent (DirectMessage.status r).

(** ** Fixed texts of the source *)

Definition default_commentReply : string := "Thanks! Please check your DMs.".

Definition default_openingMessage : string :=
  "Hey there! I'm so happy you're here, thanks so much for your interest 😊"
  ++ nl ++ nl ++ "Click below and I'll send you the link in just a sec ✨".

Definition default_buttonText : string := "Send me the link".

Definition default_brandingMessage : string :=
  "⚡ Sent via ChatAutoDM — grow your DMs on autopilot".

Inductive Summary :=
| Success (automationsProcessed : nat) (commentsProcessed messagesSent : Z)
| Failure (error : string).

(** ** The engine *)

Section Engine.

Variable w : Env.

(** *** Effects *)

Definition newDate : M Z := t <- tick ;; ret (clock w t).

Definition newObjectId : M string := t <- tick ;; ret (objectId w t).

(** Every store operation may fail and throw. *)
Definition store_op : M unit :=
  t <- tick ;; if store_up w t then ret tt else throw (store_error w t).

(** [await fetch(...)] then [response.ok] and [await response.json()]: the
    call is recorded, a rejection is thrown, and the caller sees either the
    error message of a response that is not [ok] or the body. *)
Definition request {A} (e : Event) (answer : nat -> Response A)
    : M (string + A) :=
  t <- tick ;;
  emit e ;;
  match answer t with
  | Rejected err => throw err
  | NotOk message => ret (inl message)
  | Ok body => ret (inr body)
  end.

Definition findOne_account (id : string) : M (option Account.t) :=
  store_op ;;
  d <- get_db ;;
  ret (find (fun a => String.eqb (Account._id a) id) (instagramAccounts d)).

Definition updateOne_account (id token : string)
    (expiresAt lastTokenRefresh : Z) : M unit :=
  store_op ;;
  d <- get_db ;;
  put_db (with_accounts
            (update_first (fun a => String.eqb (Account._id a) id)
               (set_token token expiresAt lastTokenRefresh)
               (instagramAccounts d)) d) ;;
  emit (UpdateAccount id token expiresAt lastTokenRefresh).

Definition find_active_automations : M (list Automation.t) :=
  store_op ;;
  d <- get_db ;;
  ret (filter Automation.active (automations d)).

Definition find_posts (instagramAccountId : string) : M (list Post.t) :=
  store_op ;;
  d <- get_db ;;
  ret (filter (fun p => String.eqb (Post.instagramAccountId p) instagramAccountId)
         (posts d)).

Definition findOne_post (id : string) : M (option Post.t) :=
  store_op ;;
  d <- get_db ;;
  ret (find (fun p => String.eqb (Post._id p) id) (posts d)).

Definition findOne_directMessage (automationId : string)
    (recipientUsername : option string) : M (option DirectMessage.t) :=
  store_op ;;
  d <- get_db ;;
  ret (find (dm_for automationId recipientUsername) (directMessages d)).

Definition countDocuments_directMessages (automationId : string)
    (oneHourAgo : Z) : M Z :=
  store_op ;;
  d <- get_db ;;
  ret (Z.of_nat (length (filter (recent_sent automationId oneHourAgo)
                           (directMessages d)))).

Definition insertOne_directMessage (r : DirectMessage.t) : M unit :=
  store_op ;;
  d <- get_db ;;
  put_db (with_directMessages (directMessages d ++ [r]) d) ;;
  emit (InsertDirectMessage r).

Definition insertOne_commentReply (r : CommentReply.t) : M unit :=
  store_op ;;
  d <- get_db ;;
  put_db (with_commentReplies (commentReplies d ++ [r]) d) ;;
  emit (InsertCommentReply r).

Definition updateOne_stats (id : string) (lastTriggered : Z) : M unit :=
  store_op ;;
  d <- get_db ;;
  put_db (with_automations
            (update_first (fun a => String.eqb (Automation._id a) id)
               (bump_stats lastTriggered) (automations d)) d) ;;
  emit (UpdateStats id lastTriggered).

Definition updateOne_lastChecked (id : string) (lastChecked : Z) : M unit :=
  store_op ;;
  d <- get_db ;;
  put_db (with_automations
            (update_first (fun a => String.eqb (Automation._id a) id)
               (set_lastChecked lastChecked) (automations d)) d) ;;
  emit (UpdateLastChecked id lastChecked).

(** *** Local time *)

Definition LocalTime (t : Z) : Z := t + localTZA w t true.

Definition UTC (t : Z) : Z := t - localTZA w t false.

(** [d.getSeconds()] on a date of time value [t]. *)
Definition getSeconds (t : Z) : Z := SecFromTime (LocalTime t).

(** The time value of a date of time value [t] after [d.setSeconds(sec)]:
    the seconds of the local time are replaced, the other fields of the
    local time kept. *)
Definition setSeconds (t sec : Z) : Z :=
  let local := LocalTime t in
  UTC (MakeDate (Day local)
         (MakeTime (HourFromTime local) (MinFromTime local) sec
            (msFromTime local))).

(** *** [refreshInstagramToken] *)

Definition refreshInstagramToken (accessToken : string)
    : M (option (string * Z)) :=
  try_catch
    (response <- request (CallRefresh accessToken)
                   (fun t => refresh_access_token w t accessToken) ;;
     match response with
     | inl _ => ret None
     | inr data => ret (Some data)
     end)
    (fun _ => ret None).

(** *** [getValidTokenForAccount] *)

Definition getValidTokenForAccount (accountId : string) : M (option string) :=
  try_catch
    (account <- findOne_account accountId ;;
     match account with
     | None => ret None
     | Some account =>
       valid <- try_catch
                  (testResponse <- request (CallMe (Account.accessToken account))
                                     (fun t => me w t (Account.accessToken account)) ;;
                   match testResponse with
                   | inr _ => ret true
                   | inl _ => ret false
                   end)
                  (fun _ => ret false) ;;
       if valid : bool then ret (Some (Account.accessToken account))
       else
         refreshResult <- refreshInstagramToken (Account.accessToken account) ;;
         match refreshResult with
         | None => ret None
         | Some (accessToken, expiresIn) =>
           date <- newDate ;;
           let newExpiryDate := setSeconds date (getSeconds date + expiresIn) in
           lastTokenRefresh <- newDate ;;
           updateOne_account (Account._id account) accessToken newExpiryDate
             lastTokenRefresh ;;
           ret (Some accessToken)
         end
     end)
    (fun _ => ret None).

(** *** [getPostComments] *)

Definition to_comment (c : RawComment.t) : Comment.t :=
  Comment.mk (RawComment.id c) (RawComment.text c)
    (or_opt (RawComment.username c) (RawComment.from_username c))
    (RawComment.timestamp c).

Definition getPostComments (accessToken postId : string) (since : Z)
    : M (list Comment.t) :=
  try_catch
    (response <- request (CallComments accessToken postId since)
                   (fun t => comments w t accessToken postId since) ;;
     match response with
     | inl message =>
       throw ("Error: Failed to fetch post comments: " ++ message)
     | inr data => ret (map to_comment data)
     end)
    (fun _ => ret []).

(** *** [replyToComment] *)

Definition replyToComment (accessToken commentId replyText : string) : M unit :=
  try_catch
    (response <- request (CallReplies accessToken commentId replyText)
                   (fun t => replies w t accessToken commentId replyText) ;;
     match response with
     | inl message => throw ("Error: Failed to reply to comment: " ++ message)
     | inr _ => ret tt
     end)
    (fun error => throw error).

(** *** [sendDirectMessageWithButton] and [sendDirectMessage] *)

Definition send (accessToken instagramAccountId : string)
    (recipientUsername : option string) (message : string)
    (quick : option QuickReply) : M unit :=
  try_catch
    (userSearchResponse <-
       request (CallUsernameSearch accessToken recipientUsername)
         (fun t => ig_username_search w t accessToken recipientUsername) ;;
     match userSearchResponse with
     | inl message =>
       throw ("Error: Failed to find Instagram user: " ++ message)
     | inr [] =>
       throw ("Error: Instagram user @" ++ template recipientUsername
              ++ " not found")
     | inr (recipientId :: _) =>
       dmResponse <-
         request (CallMessages accessToken instagramAccountId recipientId
                    message quick)
           (fun t => messages w t accessToken instagramAccountId recipientId
                       message quick) ;;
       match dmResponse with
       | inl message =>
         throw ("Error: Failed to send direct message: " ++ message)
       | inr _ => ret tt
       end
     end)
    (fun error => throw error).

Definition sendDirectMessageWithButton (accessToken instagramAccountId : string)
    (recipientUsername : option string) (message buttonText automationId : string)
    : M unit :=
  send accessToken instagramAccountId recipientUsername message
    (Some (buttonText, "SEND_CONTENT_" ++ automationId)).

Definition sendDirectMessage (accessToken instagramAccountId : string)
    (recipientUsername : option string) (message : string) : M unit :=
  send accessToken instagramAccountId recipientUsername message None.

(** *** [processPostComments] *)

(** The trigger test of the comment loop. *)
Definition triggerMatched (automation : Automation.t) (comment : Comment.t)
    : bool :=
  String.eqb (Automation.triggerKeyword automation) "any"
  || includes (toLowerCase w (Comment.text comment))
       (toLowerCase w (Automation.triggerKeyword automation)).

(** [if (automation.replyToComments) { try { ... } catch { } }] *)
Definition replyStep (automation : Automation.t) (instagramAccount : Account.t)
    (comment : Comment.t) : M unit :=
  if Automation.replyToComments automation then
    try_catch
      (replyToComment (Account.accessToken instagramAccount)
         (Comment.id comment)
         (or_else (Automation.commentReply automation) default_commentReply) ;;
       oid <- newObjectId ;;
       date <- newDate ;;
       insertOne_commentReply
         (CommentReply.mk oid (Automation._id automation) (Comment.id comment)
            (Comment.username comment) (Automation.commentReply automation)
            sent date))
      (fun _ => ret tt)
  else ret tt.

(** The [try] block that sends the message and logs it. *)
Definition sendAndLog (automation : Automation.t) (instagramAccount : Account.t)
    (comment : Comment.t) : M unit :=
  (if Automation.useOpeningMessage automation then
     let openingMessage :=
       or_else (Automation.openingMessage automation) default_openingMessage in
     let buttonText :=
       or_else (Automation.buttonText automation) default_buttonText in
     sendDirectMessageWithButton (Account.accessToken instagramAccount)
       (Account.instagramId instagramAccount) (Comment.username comment)
       openingMessage buttonText (Automation._id automation) ;;
     oid <- newObjectId ;;
     date <- newDate ;;
     insertOne_directMessage
       (DirectMessage.mk oid (Automation._id automation)
          (Comment.username comment) (Comment.id comment)
          (Some openingMessage) (Some opening) sent None date)
   else
     let fullMessage :=
       if Automation.addBranding automation then
         Automation.message automation ++ nl ++ nl
         ++ or_else (Automation.brandingMessage automation)
              default_brandingMessage
       else Automation.message automation in
     sendDirectMessage (Account.accessToken instagramAccount)
       (Account.instagramId instagramAccount) (Comment.username comment)
       fullMessage ;;
     oid <- newObjectId ;;
     date <- newDate ;;
     insertOne_directMessage
       (DirectMessage.mk oid (Automation._id automation)
          (Comment.username comment) (Comment.id comment)
          (Some fullMessage) (Some direct) sent None date)) ;;
  (* totalSent++ *)
  f <- get_frame ;;
  put_frame (fst f, snd f + 1) ;;
  date <- newDate ;;
  updateOne_stats (Automation._id automation) date.

(** The [catch] block of the send: the failed attempt is logged. *)
Definition logFailure (automation : Automation.t) (comment : Comment.t)
    (error : string) : M unit :=
  oid <- newObjectId ;;
  date <- newDate ;;
  insertOne_directMessage
    (DirectMessage.mk oid (Automation._id automation)
       (Comment.username comment) (Comment.id comment)
       (if Automation.useOpeningMessage automation
        then Automation.openingMessage automation
        else Some (Automation.message automation))
       None failed (Some error) date).

(** The DM step: [try { send and log } catch (error) { log the failure }]. *)
Definition dmStep (automation : Automation.t) (instagramAccount : Account.t)
    (comment : Comment.t) : M unit :=
  try_catch (sendAndLog automation instagramAccount comment)
    (logFailure automation comment).

(** The body of [for (const comment of comments)]; [continue] is an early
    [ret tt]. *)
Definition processComment (automation : Automation.t)
    (instagramAccount : Account.t) (comment : Comment.t) : M unit :=
  if negb (triggerMatched automation comment) then ret tt
  else
    existingDM <- findOne_directMessage (Automation._id automation)
                    (Comment.username comment) ;;
    match existingDM with
    | Some _ => ret tt
    | None =>
      now <- newDate ;;
      let oneHourAgo := now - 60 * 60 * 1000 in
      recentDMs <- countDocuments_directMessages (Automation._id automation)
                     oneHourAgo ;;
      if recentDMs >=? or_num (Automation.rateLimit automation) 10 then ret tt
      else
        replyStep automation instagramAccount comment ;;
        dmStep automation instagramAccount comment
    end.

Definition processPostComments (post : Post.t) (automation : Automation.t)
    (instagramAccount : Account.t) (totalProcessed totalSent : Z) : M unit :=
  put_frame (totalProcessed, totalSent) ;;
  try_catch
    (let lastChecked :=
       match Automation.lastChecked automation with
       | Some d => d
       | None => 0
       end in
     comments <- getPostComments (Account.accessToken instagramAccount)
                   (Post.instagramId post) lastChecked ;;
     (* totalProcessed += comments.length *)
     f <- get_frame ;;
     put_frame (fst f + Z.of_nat (length comments), snd f) ;;
     for_of comments (processComment automation instagramAccount) ;;
     date <- newDate ;;
     updateOne_lastChecked (Automation._id automation) date)
    (fun _ => ret tt).

(** *** [checkComments] *)

(** The body of [for (const automation of automations)]. *)
Definition processAutomation (automation : Automation.t)
    (totalProcessed totalSent : Z) : M unit :=
  try_catch
    (instagramAccount <- findOne_account
                           (Automation.instagramAccountId automation) ;;
     match instagramAccount with
     | None => ret tt
     | Some instagramAccount =>
       validToken <- getValidTokenForAccount (Account._id instagramAccount) ;;
       match truthy validToken with
       | None => ret tt
       | Some validToken =>
         let instagramAccount := set_accessToken validToken instagramAccount in
         match truthy (Automation.postId automation) with
         | None =>
           posts <- find_posts (Account._id instagramAccount) ;;
           for_of posts
             (fun post => processPostComments post automation instagramAccount
                            totalProcessed totalSent)
         | Some postId =>
           post <- findOne_post postId ;;
           match post with
           | None => ret tt
           | Some post =>
             processPostComments post automation instagramAccount
               totalProcessed totalSent
           end
         end
       end
     end)
    (fun _ => ret tt).

Definition checkComments : M Summary :=
  finally
    (try_catch
       (store_op ;;                                  (* client.connect() *)
        automations <- find_active_automations ;;
        let totalProcessed := 0 in
        let totalSent := 0 in
        for_of automations
          (fun automation => processAutomation automation totalProcessed
                               totalSent) ;;
        ret (Success (length automations) totalProcessed totalSent))
       (fun _ => ret (Failure "Failed to check comments")))
    store_op.                                        (* client.close() *)

End Engine.

Arguments getSeconds : simpl never.
Arguments setSeconds : simpl never.

(** ** Concrete environments and stores, for running the engine *)

Definition lower_ascii (c : ascii) : ascii :=
  let n := nat_of_ascii c in
  if (Nat.leb 65 n && Nat.leb n 90)%bool then ascii_of_nat (n + 32) else c.

(** Lower-casing of the ASCII letters, the other bytes unchanged. *)
Fixpoint lower (s : string) : string :=
  match s with
  | EmptyString => EmptyString
  | String c s' => String (lower_ascii c) (lower s')
  end.

(** A world where the store is up, the server is on UTC, the clock advances
    by a second per effect, replies and message sends succeed, and the token probe, the
    refresh, the comment fetch and the handle lookup answer as given. *)
Definition world (probe : Response unit) (refresh : Response (string * Z))
    (fetch : Response (list RawComment.t)) (lookup : Response (list string))
    : Env :=
  mkEnv lower
    (fun t => 1700000000000 + 1000 * Z.of_nat t)
    (fun _ _ => 0)
    (fun t => "oid" ++ String (ascii_of_nat (48 + t mod 10)) EmptyString)
    (fun _ => true)
    (fun _ => "MongoNetworkError")
    (fun _ _ => probe)
    (fun _ _ => refresh)
    (fun _ _ _ _ => fetch)
    (fun _ _ _ _ => Ok tt)
    (fun _ _ _ => lookup)
    (fun _ _ _ _ _ _ => Ok tt).

(** The world where everything succeeds and every post has comments [cs]. *)
Definition calm (cs : list RawComment.t) : Env :=
  world (Ok tt) (Ok ("fresh-token", 5184000)) (Ok cs)
    (Ok ["17841400000000001"]).

Definition acct : Account.t :=
  Account.mk "acc1" "178414" "shop" "token-1" None None.

(** An automation on account [acc1] with keyword [kw] and target [post]. *)
Definition rule (kw : string) (post : option string) (limit : option Z)
    : Automation.t :=
  Automation.mk "auto1" "acc1" post true kw limit false None false None None
    "Hi!" false None None None 0.

Definition post1 : Post.t := Post.mk "p1" "acc1" "ig-p1".
Definition post2 : Post.t := Post.mk "p2" "acc1" "ig-p2".

Definition raw (id text user : string) : RawComment.t :=
  RawComment.mk id text (Some user) None "2023-11-14T22:13:20+0000".

Definition start (d : Store) : State := mkState 0 d [] (0, 0).

(** A sent record of automation [auto1]. *)
Definition sent_to (user : string) (date : Z) : DirectMessage.t :=
  DirectMessage.mk "dm" "auto1" (Some user) "c0" (Some "Hi!") (Some direct)
    sent None date.

(** Ten sent records of automation [auto1], all a few seconds old. *)
Definition ten_sent : list DirectMessage.t :=
  map (fun n => sent_to (String (ascii_of_nat (97 + n)) EmptyString)
                  (1699999990000 + Z.of_nat n))
    (seq 0 10).

Definition zoe : Comment.t := to_comment (raw "c11" "me too" "zoe").

Definition store0 (a : Automation.t) (dms : list DirectMessage.t) : Store :=
  mkStore [acct] [a] [post1; post2] dms [].

(** An automation that replies to comments, without a reply text. *)
Definition replying : Automation.t :=
  Automation.mk "auto1" "acc1" None true "any" None true None false None None
    "Hi!" false None None None 0.

(** The world where the token has expired and the refresh succeeds, and the
    world where the refresh fails too. *)
Definition expired : Env :=
  world (NotOk "Error validating access token") (Ok ("fresh-token", 5184000))
    (Ok []) (Ok []).

Definition revoked : Env :=
  world (NotOk "Error validating access token")
    (NotOk "Error validating access token") (Ok []) (Ok []).

(** A time zone one hour ahead of UTC that moves to two hours ahead at the
    instant [change], and the world of an expired token on a server in such
    a zone, the change falling between the refresh and the expiry. *)
Definition ahead_from (change : Z) (t : Z) (isUTC : bool) : Z :=
  if t <? (if isUTC then change else change + 3600000) then 3600000
  else 7200000.

Definition zone_change : Env :=
  mkEnv (toLowerCase expired) (clock expired) (ahead_from 1702000000000)
    (objectId expired) (store_up expired) (store_error expired) (me expired)
    (refresh_access_token expired) (comments expired) (replies expired)
    (ig_username_search expired) (messages expired).

(** The world where the comment fetch fails, and the world where no handle
    resolves. *)
Definition fetch_down : Env :=
  world (Ok tt) (Ok ("fresh-token", 5184000)) (NotOk "Unsupported get request")
    (Ok []).

Definition nobody : Env :=
  world (Ok tt) (Ok ("fresh-token", 5184000))
    (Ok [raw "c1" "link please" "ghost"]) (Ok []).

Definition ghost : Comment.t := to_comment (raw "c1" "link please" "ghost").

(** The record of a failed attempt of automation [auto1]. *)
Definition failed_to (user : string) (date : Z) : DirectMessage.t :=
  DirectMessage.mk "dm" "auto1" (Some user) "c0" (Some "Hi!") None failed
    (Some "Error: Failed to send direct message: (#10) not allowed") date.

(** A world where the one post has one comment, which asks for the link. *)
Definition one_comment : Env := calm [raw "c1" "LINK please" "bob"].

Definition one_post : Store :=
  mkStore [acct] [rule "link" (Some "p1") None] [post1] [] [].

(** ** What the claims speak about *)

(** [t] occurs in [s] as a substring. *)
Definition substring_of (t s : string) : Prop :=
  exists pre post, s = pre ++ t ++ post.

(** A [sent] record of kind [direct] or [opening] for the pair. *)
Definition delivered (automationId : string) (recipient : option string)
    (r : DirectMessage.t) : bool :=
  dm_for automationId recipient r
  && is_sent (DirectMessage.status r)
  && match DirectMessage.type r with
     | Some _ => true
     | None => false
     end.

(** At-most-once delivery: no pair has two delivered records. *)
Definition at_most_once (l : list DirectMessage.t) : Prop :=
  forall automationId recipient,
    (length (filter (delivered automationId recipient) l) <= 1)%nat.

(** The ledger only grows, and a record is appended either for a failed
    attempt or for a pair without any record so far. *)
Inductive grows (l : list DirectMessage.t) : list DirectMessage.t -> Prop :=
| grows_same : grows l l
| grows_failed l' r :
    grows l l' -> DirectMessage.status r = failed -> grows l (l' ++ [r])
| grows_first l' r :
    grows l l' ->
    find (dm_for (DirectMessage.automationId r)
            (DirectMessage.recipientUsername r)) l' = None ->
    grows l (l' ++ [r]).

(** Sequential runs of the job, in any worlds, with the application free to
    edit the other collections in between. *)
Inductive after_runs : State -> State -> Prop :=
| runs_none s : after_runs s s
| runs_job w s s' :
    after_runs s s' -> after_runs s (snd (checkComments w s'))
| runs_edit s s' s'' :
    after_runs s s' ->
    directMessages (db s'') = directMessages (db s') ->
    after_runs s s''.

(** The ledger of dispatches: the [directMessages] collection. *)
Definition ledger (s : State) : list DirectMessage.t := directMessages (db s).

(** The expiry that a refresh at date [now] stores for a time to live of
    [ttl] seconds: [d = new Date(); d.setSeconds(d.getSeconds() + ttl)]. *)
Definition newExpiryDate (w : Env) (now ttl : Z) : Z :=
  setSeconds w now (getSeconds w now + ttl).

(** The effective ceiling of the rate limiter. *)
Definition ceiling (automation : Automation.t) : Z :=
  or_num (Automation.rateLimit automation) 10.

(** The count the rate limiter of a comment processed from state [s] makes:
    its clock reading is the second effect of the comment's processing. *)
Definition evaluation_time (w : Env) (s : State) : Z := clock w (S (next s)).

Definition window_count (w : Env) (automation : Automation.t) (s : State) : Z :=
  Z.of_nat (length (filter (recent_sent (Automation._id automation)
                              (evaluation_time w s - 60 * 60 * 1000))
                      (ledger s))).

(** The trailing 60 minutes, as the specification words it. *)
Definition in_trailing_hour (automationId : string) (now : Z)
    (r : DirectMessage.t) : bool :=
  String.eqb (DirectMessage.automationId r) automationId
  && is_sent (DirectMessage.status r)
  && (now - 3600000 <=? DirectMessage.sentAt r)
  && (DirectMessage.sentAt r <=? now).

(** Counting in a trace. *)
Definition is_checkpoint (id : string) (e : Event) : bool :=
  match e with
  | UpdateLastChecked id' _ => String.eqb id' id
  | _ => false
  end.

Definition checkpoint_writes (id : string) (tr : list Event) : nat :=
  length (filter (is_checkpoint id) tr).

(** The posts whose comments were requested, in order, with the [since]
    bound of each request. *)
Fixpoint fetched (tr : list Event) : list (string * Z) :=
  match tr with
  | [] => []
  | CallComments _ postId since :: tr' => (postId, since) :: fetched tr'
  | _ :: tr' => fetched tr'
  end.



Definition store_reliable (w : Env) : Prop := forall t, store_up w t = true.

(** A lookup that does not resolve the handle: the call throws, the response
    is not [ok], or no user is found. *)
Definition lookup_error (recipient : option string) (r : Response (list string))
    : option string :=
  match r with
  | Rejected e => Some e
  | NotOk message => Some ("Error: Failed to find Instagram user: " ++ message)
  | Ok [] => Some ("Error: Instagram user @" ++ template recipient ++ " not found")
  | Ok (_ :: _) => None
  end.

(** The ledger of the state after grows from the ledger of the state
    before. *)
Definition ledger_grows (s s' : State) : Prop := grows (ledger s) (ledger s').

(** What a pass leaves in the trace: the number of checkpoint writes of the
    automation and the comment fetches. *)
Definition pass_marks (id : string) (s : State) : nat * list (string * Z) :=
  (checkpoint_writes id (trace s), fetched (trace s)).

(** The [since] bound of a pass: [automation.lastChecked || new Date(0)]. *)
Definition since_of (automation : Automation.t) : Z :=
  match Automation.lastChecked automation with
  | Some d => d
  | None => 0
  end.

(** A relation between the state before and after that a program respects,
    whether it returns or throws. *)
Definition keeps (R : State -> State -> Prop) {A} (m : M A) : Prop :=
  forall s, R s (snd (m s)).

(** An observation of the state that a program leaves as it is. *)
Definition stable {X} (obs : State -> X) : State -> State -> Prop :=
  fun s s' => obs s' = obs s.

(** A program that never throws. *)
Definition total {A} (m : M A) : Prop :=
  forall s, exists a, fst (m s) = Return a.

(** The state after [n] effects that neither write nor call. *)
Definition advance (n : nat) (s : State) : State :=
  mkState (n + next s) (db s) (trace s) (frame s).

(** The trace only grows. *)
Definition trace_extends (s s' : State) : Prop :=
  exists l, trace s' = (trace s ++ l)%list.

(** The pass over a post, step by step: the comments of the post are
    fetched (none when the fetch fails), each of them goes through the
    comment loop, in the order fetched, and the checkpoint is written. *)
Definition write_checkpoint (w : Env) (a : Automation.t) (s : State) : State :=
  mkState (2 + next s)
    (with_automations
       (update_first (fun x => String.eqb (Automation._id x) (Automation._id a))
          (set_lastChecked (clock w (next s))) (automations (db s)))
       (db s))
    (trace s ++ [UpdateLastChecked (Automation._id a) (clock w (next s))])%list
    (frame s).

Definition fetched_comments (w : Env) (a : Automation.t) (ia : Account.t)
    (post : Post.t) (s : State) : list Comment.t :=
  match comments w (next s) (Account.accessToken ia) (Post.instagramId post)
          (since_of a) with
  | Ok data => map to_comment data
  | _ => []
  end.

Definition one_pass (w : Env) (a : Automation.t) (ia : Account.t)
    (tp ts : Z) (s : State) (post : Post.t) : State :=
  let cs := fetched_comments w a ia post s in
  write_checkpoint w a
    (snd (for_of cs (processComment w a ia)
            (mkState (1 + next s) (db s)
               (trace s
                ++ [CallComments (Account.accessToken ia)
                      (Post.instagramId post) (since_of a)])%list
               (tp + Z.of_nat (length cs), ts)))).

(** The fetches and the checkpoint writes of an automation in a trace, in
    the order made. *)
Inductive PassEvent :=
| Fetched (postId : string) (since : Z)
| Checkpointed.

Fixpoint pass_events (id : string) (tr : list Event) : list PassEvent :=
  match tr with
  | [] => []
  | CallComments _ postId since :: tr' =>
    Fetched postId since :: pass_events id tr'
  | UpdateLastChecked id' _ :: tr' =>
    if String.eqb id' id then Checkpointed :: pass_events id tr'
    else pass_events id tr'
  | _ :: tr' => pass_events id tr'
  end.

(** ** What the further properties speak about *)

(** The text of a plain direct message: [automation.message], with the
    branding after a blank line when [addBranding] is set. *)
Definition full_message (automation : Automation.t) : string :=
  if Automation.addBranding automation then
    Automation.message automation ++ nl ++ nl
    ++ or_else (Automation.brandingMessage automation) default_brandingMessage
  else Automation.message automation.

(** The text and the quick reply of an opening message. *)
Definition opening_text (automation : Automation.t) : string :=
  or_else (Automation.openingMessage automation) default_openingMessage.

Definition opening_button (automation : Automation.t) : QuickReply :=
  (or_else (Automation.buttonText automation) default_buttonText,
   "SEND_CONTENT_" ++ Automation._id automation).

(** What the DM step sends and logs, in either mode. *)
Definition dm_text (automation : Automation.t) : string :=
  if Automation.useOpeningMessage automation then opening_text automation
  else full_message automation.

Definition dm_quick (automation : Automation.t) : option QuickReply :=
  if Automation.useOpeningMessage automation
  then Some (opening_button automation)
  else None.

Definition dm_kind (automation : Automation.t) : Kind :=
  if Automation.useOpeningMessage automation then opening else direct.

(** A message send that does not go through: the call throws or the
    response is not [ok]. *)
Definition send_error (r : Response unit) : option string :=
  match r with
  | Rejected e => Some e
  | NotOk message =>
    Some ("Error: Failed to send direct message: " ++ message)
  | Ok _ => None
  end.

(** The template that the record of a failed attempt stores. *)
Definition raw_template (automation : Automation.t) : option string :=
  if Automation.useOpeningMessage automation
  then Automation.openingMessage automation
  else Some (Automation.message automation).

(** An automation without what the job writes to it: the checkpoint, the
    date of the last trigger and the counter. *)
Definition settings (a : Automation.t) : Automation.t :=
  Automation.mk (Automation._id a) (Automation.instagramAccountId a)
    (Automation.postId a) (Automation.active a) (Automation.triggerKeyword a)
    (Automation.rateLimit a) (Automation.replyToComments a)
    (Automation.commentReply a) (Automation.useOpeningMessage a)
    (Automation.openingMessage a) (Automation.buttonText a)
    (Automation.message a) (Automation.addBranding a)
    (Automation.brandingMessage a) None None 0.

(** An account without what the job writes to it: the token, its expiry and
    the date of its refresh. *)
Definition profile (a : Account.t) : string * string * string :=
  (Account._id a, Account.instagramId a, Account.username a).

(** What a run is not to touch: the posts, the settings of the automations
    and the profiles of the accounts. *)
Definition configuration (s : State)
    : list Post.t * list Automation.t * list (string * string * string) :=
  (posts (db s), map settings (automations (db s)),
   map profile (instagramAccounts (db s))).

(** Both logs are only appended to. *)
Definition appends (s s' : State) : Prop :=
  exists dms rs,
    ledger s' = (ledger s ++ dms)%list
    /\ commentReplies (db s') = (commentReplies (db s) ++ rs)%list.

(** Counter updates and logged deliveries in a trace. *)
Definition is_stats (id : string) (e : Event) : bool :=
  match e with
  | UpdateStats id' _ => String.eqb id' id
  | _ => false
  end.

Definition is_delivery (id : string) (e : Event) : bool :=
  match e with
  | InsertDirectMessage r =>
    String.eqb (DirectMessage.automationId r) id
    && is_sent (DirectMessage.status r)
  | _ => false
  end.

Definition stats_updates (id : string) (tr : list Event) : nat :=
  length (filter (is_stats id) tr).

Definition deliveries (id : string) (tr : list Event) : nat :=
  length (filter (is_delivery id) tr).

(** The counter of an automation never runs ahead of the deliveries logged
    for it. *)
Definition stats_behind (id : string) (s s' : State) : Prop :=
  (stats_updates id (trace s') + deliveries id (trace s)
   <= deliveries id (trace s') + stats_updates id (trace s))%nat.

(** The [sent] records of an automation, of any age. *)
Definition sent_by (id : string) (r : DirectMessage.t) : bool :=
  String.eqb (DirectMessage.automationId r) id
  && is_sent (DirectMessage.status r).

Definition sent_count (id : string) (l : list DirectMessage.t) : Z :=
  Z.of_nat (length (filter (sent_by id) l)).

(** A record that is less than an hour old at every reading of the clock. *)
Definition fresh (w : Env) (r : DirectMessage.t) : Prop :=
  forall t, clock w t - 60 * 60 * 1000 <= DirectMessage.sentAt r.

(** While the records stay fresh, the [sent] records of the automation do
    not come to outnumber the ceiling (or what they were). *)
Definition within_ceiling (w : Env) (a : Automation.t) (s s' : State) : Prop :=
  Forall (fresh w) (ledger s) ->
  Forall (fresh w) (ledger s')
  /\ sent_count (Automation._id a) (ledger s')
     <= Z.max (sent_count (Automation._id a) (ledger s)) (ceiling a).

(** A world with the store down at effect [t], a world where the message
    endpoint rejects, and a world where the reply endpoint does. *)
Definition store_down_at (t : nat) (w : Env) : Env :=
  mkEnv (toLowerCase w) (clock w) (localTZA w) (objectId w)
    (fun n => negb (Nat.eqb n t)) (store_error w) (me w)
    (refresh_access_token w) (comments w) (replies w) (ig_username_search w)
    (messages w).

Definition rejecting (w : Env) : Env :=
  mkEnv (toLowerCase w) (clock w) (localTZA w) (objectId w) (store_up w)
    (store_error w) (me w) (refresh_access_token w) (comments w) (replies w)
    (ig_username_search w)
    (fun _ _ _ _ _ _ => NotOk "(#10) outside of allowed window").

Definition no_reply (w : Env) : Env :=
  mkEnv (toLowerCase w) (clock w) (localTZA w) (objectId w) (store_up w)
    (store_error w) (me w) (refresh_access_token w) (comments w)
    (fun _ _ _ _ => NotOk "(#100) unsupported post request")
    (ig_username_search w) (messages w).





(** An automation that brands its messages, and one that opens with a
    button. *)
Definition branded : Automation.t :=
  Automation.mk "auto1" "acc1" None true "any" None false None false None None
    "Hi!" true (Some "via X") None None 0.

Definition with_button : Automation.t :=
  Automation.mk "auto1" "acc1" None true "any" None false None true None None
    "Hi!" false None None None 0.

Definition bob : Comment.t := to_comment (raw "c1" "LINK please" "bob").

(** * Reasoning about engine programs *)

Local Open Scope list_scope.

Section Keeps.

Context (R : State -> State -> Prop) `{!PreOrder R}.

Lemma keeps_ret {A} (a : A) : keeps R (ret a).
Proof. intro s. reflexivity. Qed.

Lemma keeps_throw {A} (e : string) : keeps R (@throw A e).
Proof. intro s. reflexivity. Qed.

Lemma keeps_bind {A B} (m : M A) (k : A -> M B) :
  keeps R m -> (forall a, keeps R (k a)) -> keeps R (bind m k).
Proof.
  intros Hm Hk s. unfold bind. specialize (Hm s).
  destruct (m s) as [[a | e] s1]; simpl in *.
  - etransitivity; [exact Hm | apply Hk].
  - exact Hm.
Qed.

Lemma keeps_try_catch {A} (m : M A) (h : string -> M A) :
  keeps R m -> (forall e, keeps R (h e)) -> keeps R (try_catch m h).
Proof.
  intros Hm Hh s. unfold try_catch. specialize (Hm s).
  destruct (m s) as [[a | e] s1]; simpl in *.
  - exact Hm.
  - etransitivity; [exact Hm | apply Hh].
Qed.

Lemma keeps_finally {A} (m : M A) (f : M unit) :
  keeps R m -> keeps R f -> keeps R (finally m f).
Proof.
  intros Hm Hf s. unfold finally. specialize (Hm s).
  destruct (m s) as [r s1]; simpl in *. specialize (Hf s1).
  destruct (f s1) as [[u | e] s2]; simpl in *;
    etransitivity; eassumption.
Qed.

Lemma keeps_for_of {A} (l : list A) (body : A -> M unit) :
  (forall x, In x l -> keeps R (body x)) -> keeps R (for_of l body).
Proof.
  induction l as [| x l IH]; intros Hb; simpl.
  - apply keeps_ret.
  - apply keeps_bind.
    + apply Hb. now left.
    + intros _. apply IH. intros y Hy. apply Hb. now right.
Qed.

End Keeps.

#[export] Instance stable_preorder {X} (obs : State -> X) : PreOrder (stable obs).
Proof.
  split.
  - intro s. reflexivity.
  - intros s1 s2 s3 H12 H23. unfold stable in *. congruence.
Qed.

(** Symbolic execution of the effects, down to explicit states. *)
Ltac unfold_effects :=
  unfold newDate, newObjectId, store_op, request, findOne_account,
    updateOne_account, find_active_automations, find_posts, findOne_post,
    findOne_directMessage, countDocuments_directMessages,
    insertOne_directMessage, insertOne_commentReply, updateOne_stats,
    updateOne_lastChecked, bind, try_catch, ret, throw, tick, emit, get_db,
    put_db, get_frame, put_frame.

Ltac split_innermost :=
  match goal with
  | |- context [match ?x with _ => _ end] =>
    lazymatch x with
    | context [match _ with _ => _ end] => fail
    | _ => destruct x eqn:?
    end
  end.

Ltac run_effects := unfold_effects; cbn; repeat (split_innermost; cbn).

(** A program made of the engine's functions keeps [R] when each effect
    does; [leaf] proves [R s s'] for an effect run down to its states. *)
Create HintDb keeps_db.

Ltac keeps_step leaf :=
  cbv beta zeta;
  lazymatch goal with
  | |- keeps _ (processComment _ _ _ _) =>
    first [ solve [auto with keeps_db nocore] | unfold processComment ]
  | |- keeps _ (ret _) => apply keeps_ret; exact _
  | |- keeps _ (throw _) => apply keeps_throw; exact _
  | |- keeps _ (bind _ _) => apply keeps_bind; try exact _; [| intro]
  | |- keeps _ (try_catch _ _) => apply keeps_try_catch; try exact _; [| intro]
  | |- keeps _ (finally _ _) => apply keeps_finally; try exact _
  | |- keeps _ (for_of _ _) => apply keeps_for_of; try exact _; intros ? _
  | |- keeps _ (match ?x with _ => _ end) => destruct x
  | |- keeps _ (refreshInstagramToken _ _) => unfold refreshInstagramToken
  | |- keeps _ (getValidTokenForAccount _ _) => unfold getValidTokenForAccount
  | |- keeps _ (getPostComments _ _ _ _) => unfold getPostComments
  | |- keeps _ (replyToComment _ _ _ _) => unfold replyToComment
  | |- keeps _ (send _ _ _ _ _ _) => unfold send
  | |- keeps _ (sendDirectMessageWithButton _ _ _ _ _ _ _) =>
    unfold sendDirectMessageWithButton
  | |- keeps _ (sendDirectMessage _ _ _ _ _) => unfold sendDirectMessage
  | |- keeps _ (replyStep _ _ _ _) => unfold replyStep
  | |- keeps _ (sendAndLog _ _ _ _) => unfold sendAndLog
  | |- keeps _ (logFailure _ _ _ _) => unfold logFailure
  | |- keeps _ (dmStep _ _ _ _) => unfold dmStep
  | |- keeps _ (processPostComments _ _ _ _ _ _) => unfold processPostComments
  | |- keeps _ (processAutomation _ _ _ _) => unfold processAutomation
  | |- keeps _ (checkComments _) => unfold checkComments
  | |- keeps _ _ =>
    let s := fresh "s" in
    unfold keeps; intro s; run_effects; leaf
  end.

Ltac keeps_all leaf := repeat (keeps_step leaf).

(** ** What leaves the ledger as it is *)

Ltac same_ledger := unfold stable, ledger; cbn; reflexivity.

Lemma replyStep_ledger w a ia c : keeps (stable ledger) (replyStep w a ia c).
Proof. keeps_all same_ledger. Qed.

(** ** Programs that never throw *)

Lemma total_ret {A} (a : A) : total (ret a).
Proof. intro s. now exists a. Qed.

Lemma total_bind {A B} (m : M A) (k : A -> M B) :
  total m -> (forall a, total (k a)) -> total (bind m k).
Proof.
  intros Hm Hk s. unfold bind. destruct (Hm s) as [a Ha].
  destruct (m s) as [r s1]; cbn in Ha; subst r. apply Hk.
Qed.

Lemma total_try_catch {A} (m : M A) (h : string -> M A) :
  (forall e, total (h e)) -> total (try_catch m h).
Proof.
  intros Hh s. unfold try_catch. destruct (m s) as [[a | e] s1].
  - now exists a.
  - apply Hh.
Qed.

Lemma total_for_of {A} (l : list A) (body : A -> M unit) :
  (forall x, total (body x)) -> total (for_of l body).
Proof.
  intros Hb. induction l as [| x l IH]; simpl.
  - apply total_ret.
  - apply total_bind; [apply Hb | intros _; exact IH].
Qed.

Lemma bind_return {A B} (m : M A) (k : A -> M B) s a s1 :
  m s = (Return a, s1) -> bind m k s = k a s1.
Proof. intros H. unfold bind. now rewrite H. Qed.

Lemma try_catch_return {A} (m : M A) (h : string -> M A) s a s1 :
  m s = (Return a, s1) -> try_catch m h s = (Return a, s1).
Proof. intros H. unfold try_catch. now rewrite H. Qed.

Lemma replyStep_total w a ia c : total (replyStep w a ia c).
Proof.
  unfold replyStep. destruct (Automation.replyToComments a).
  - apply total_try_catch. intros _. apply total_ret.
  - apply total_ret.
Qed.

(** ** The gates of the comment loop *)

(** What [processComment] does before it dispatches: the trigger test, the
    dedup query, the clock reading and the rate-limit count. *)
Lemma processComment_gate w a ia c s :
  processComment w a ia c s =
  if negb (triggerMatched w a c) then (Return tt, s)
  else if negb (store_up w (next s)) then
    (Throw (store_error w (next s)), advance 1 s)
  else
    match find (dm_for (Automation._id a) (Comment.username c)) (ledger s) with
    | Some _ => (Return tt, advance 1 s)
    | None =>
      if negb (store_up w (S (S (next s)))) then
        (Throw (store_error w (S (S (next s)))), advance 3 s)
      else if window_count w a s >=? ceiling a then (Return tt, advance 3 s)
      else (replyStep w a ia c ;; dmStep w a ia c) (advance 3 s)
    end.
Proof.
  unfold processComment, window_count, evaluation_time, ceiling, ledger, advance.
  destruct (triggerMatched w a c); cbn [negb]; [| reflexivity].
  unfold_effects; cbn.
  destruct (store_up w (next s)); cbn; [| reflexivity].
  destruct (find _ (directMessages (db s))); cbn; [reflexivity |].
  destruct (store_up w (S (S (next s)))); cbn; [| reflexivity].
  destruct (_ >=? _); reflexivity.
Qed.

(** A comment that does not pass the gates leaves the store and the trace
    as they are. *)
Lemma processComment_blocked w a ia c s :
  triggerMatched w a c = false
  \/ (exists r, find (dm_for (Automation._id a) (Comment.username c))
                  (ledger s) = Some r)
  \/ window_count w a s >= ceiling a ->
  db (snd (processComment w a ia c s)) = db s
  /\ trace (snd (processComment w a ia c s)) = trace s.
Proof.
  intros H. rewrite processComment_gate.
  destruct (triggerMatched w a c) eqn:Ht; cbn [negb]; [| now split].
  destruct (store_up w (next s)); cbn [negb]; [| now split].
  destruct (find _ (ledger s)) eqn:Hf; [now split |].
  destruct (store_up w (S (S (next s)))); cbn [negb]; [| now split].
  destruct (window_count w a s >=? ceiling a) eqn:Hc; [now split |].
  exfalso. destruct H as [H | [[r H] | H]]; try discriminate. lia.
Qed.

#[export] Instance trace_extends_preorder : PreOrder trace_extends.
Proof.
  split.
  - intro s. exists []. now rewrite app_nil_r.
  - intros s1 s2 s3 [l1 H1] [l2 H2]. exists (l1 ++ l2).
    now rewrite H2, H1, app_assoc.
Qed.

Ltac longer_trace :=
  unfold trace_extends; cbn; rewrite <- ?app_assoc;
  first [ now (exists []; rewrite app_nil_r) | eexists; reflexivity ].

Lemma replyStep_trace w a ia c : keeps trace_extends (replyStep w a ia c).
Proof. keeps_all longer_trace. Qed.

(** The DM step begins with the lookup of the recipient's handle. *)
Lemma dmStep_attempts w a ia c s :
  exists l,
    trace (snd (dmStep w a ia c s)) =
    (trace s ++ CallUsernameSearch (Account.accessToken ia) (Comment.username c)
             :: l)%list.
Proof.
  unfold dmStep, sendAndLog, logFailure, sendDirectMessageWithButton,
    sendDirectMessage, send.
  run_effects; rewrite <- ?app_assoc; cbn; eexists; reflexivity.
Qed.

(** A comment that passes the gates is dispatched. *)
Lemma processComment_dispatch w a ia c s :
  triggerMatched w a c = true ->
  store_up w (next s) = true ->
  store_up w (S (S (next s))) = true ->
  find (dm_for (Automation._id a) (Comment.username c)) (ledger s) = None ->
  window_count w a s < ceiling a ->
  In (CallUsernameSearch (Account.accessToken ia) (Comment.username c))
    (trace (snd (processComment w a ia c s))).
Proof.
  intros Ht H1 H2 Hf Hc. rewrite processComment_gate, Ht, H1, H2, Hf.
  cbn [negb]. destruct (window_count w a s >=? ceiling a) eqn:E; [lia |].
  unfold bind at 1.
  pose proof (replyStep_trace w a ia c (advance 3 s)) as [l Hl].
  destruct (replyStep w a ia c (advance 3 s)) as [[[] | e] s1] eqn:E';
    cbn in *.
  - destruct (dmStep_attempts w a ia c s1) as [l' Hl']. rewrite Hl'.
    apply in_or_app. right. now left.
  - destruct (replyStep_total w a ia c (advance 3 s)) as [u Hu].
    rewrite E' in Hu. discriminate.
Qed.

(** ** Substring search *)

Lemma prefix_spec t : forall s,
  String.prefix t s = true <-> exists post, s = (t ++ post)%string.
Proof.
  induction t as [| a t IH]; intros s.
  - split; [intros _; now exists s | intros _; now destruct s].
  - destruct s as [| b s]; simpl.
    + split; [discriminate | intros [post H]; discriminate].
    + destruct (ascii_dec a b) as [-> | Hab].
      * rewrite IH. split; intros [post H]; exists post.
        -- now rewrite H.
        -- now inversion H.
      * split; [discriminate | intros [post H]; inversion H; congruence].
Qed.

Lemma includes_spec s : forall t, includes s t = true <-> substring_of t s.
Proof.
  induction s as [| c s IH]; intros t.
  - cbn [includes]. destruct (String.prefix t EmptyString) eqn:Hp.
    + split; [intros _ | reflexivity].
      apply prefix_spec in Hp. destruct Hp as [post H].
      now exists EmptyString, post.
    + split; [discriminate |]. intros [pre [post H]].
      destruct pre; [| discriminate]. simpl in H.
      assert (String.prefix t EmptyString = true) as Hp'
        by (apply prefix_spec; now exists post).
      congruence.
  - cbn [includes]. destruct (String.prefix t (String c s)) eqn:Hp.
    + split; [intros _ | reflexivity].
      apply prefix_spec in Hp. destruct Hp as [post H].
      now exists EmptyString, post.
    + rewrite IH. split.
      * intros [pre [post H]]. exists (String c pre), post. simpl. now rewrite H.
      * intros [pre [post H]]. destruct pre as [| c' pre].
        -- simpl in H.
           assert (String.prefix t (String c s) = true) as Hp'
             by (apply prefix_spec; now exists post).
           congruence.
        -- simpl in H. inversion H. now exists pre, post.
Qed.

(** * The claims *)

(** ** C8: the trigger test *)

(** C8.  The trigger test is true for every comment when the keyword is the
    wildcard [any]; otherwise it is true exactly when the lower-cased text of
    the comment contains the lower-cased keyword as a substring.  A comment
    for which the test is false is skipped by the comment loop with the
    machine state untouched: no call, no write, no record. *)
Theorem trigger_evaluation w a c :
  (Automation.triggerKeyword a = "any"%string -> triggerMatched w a c = true)
  /\ (Automation.triggerKeyword a <> "any"%string ->
      (triggerMatched w a c = true <->
       substring_of (toLowerCase w (Automation.triggerKeyword a))
         (toLowerCase w (Comment.text c))))
  /\ (triggerMatched w a c = false ->
      forall ia s, processComment w a ia c s = (Return tt, s)).
Proof.
  unfold triggerMatched. split; [| split].
  - intros ->. reflexivity.
  - intros Hk. apply String.eqb_neq in Hk. rewrite Hk. simpl.
    apply includes_spec.
  - intros H ia s. rewrite processComment_gate.
    unfold triggerMatched. now rewrite H.
Qed.

Lemma trigger_evaluation_witness :
  triggerMatched (calm []) (rule "any" None None)
    (to_comment (raw "c1" "hello" "bob")) = true
  /\ triggerMatched (calm []) (rule "link" None None)
       (to_comment (raw "c2" "Send LINK!" "bob")) = true
  /\ processComment (calm []) (rule "link" None None) acct
       (to_comment (raw "c3" "nice" "eve"))
       (start (mkStore [acct] [rule "link" None None] [post1] [] []))
     = (Return tt, start (mkStore [acct] [rule "link" None None] [post1] [] [])).
Proof.
  split; [| split].
  - apply (proj1 (trigger_evaluation _ _ _)). reflexivity.
  - apply (proj1 (proj2 (trigger_evaluation _ _ _))).
    + discriminate.
    + exists "send "%string, "!"%string. reflexivity.
  - apply (proj2 (proj2 (trigger_evaluation _ _ _))). reflexivity.
Defined.

(** ** C7: the rate limiter *)

Lemma recent_is_trailing id now l :
  Forall (fun r => DirectMessage.sentAt r <= now) l ->
  filter (recent_sent id (now - 60 * 60 * 1000)) l
  = filter (in_trailing_hour id now) l.
Proof.
  intros H. apply filter_ext_in. intros r Hr.
  rewrite Forall_forall in H. specialize (H r Hr).
  unfold recent_sent, in_trailing_hour.
  destruct (String.eqb _ _), (is_sent _); cbn;
    try reflexivity; try (now rewrite andb_false_r).
  destruct (Z.leb_spec (now - 60 * 60 * 1000) (DirectMessage.sentAt r));
    destruct (Z.leb_spec (now - 3600000) (DirectMessage.sentAt r));
    destruct (Z.leb_spec (DirectMessage.sentAt r) now); cbn; try reflexivity; lia.
Qed.

(** C7.  The rate limiter of a comment counts the records of the automation
    with status [sent] whose [sentAt] is not older than 60 minutes before the
    clock reading it makes ([window_count]; with no record dated in the
    future this is the count of the records within the trailing 60 minutes).
    When the count has reached the ceiling the comment leaves the store and
    the trace as they are: no record, no send attempt.  So whenever a comment
    causes a call or a write, the count was strictly below the ceiling. *)
Theorem rate_limit_gate w a ia c s :
  (window_count w a s >= ceiling a ->
   db (snd (processComment w a ia c s)) = db s
   /\ trace (snd (processComment w a ia c s)) = trace s)
  /\ (trace (snd (processComment w a ia c s)) <> trace s
      \/ db (snd (processComment w a ia c s)) <> db s ->
      window_count w a s < ceiling a)
  /\ (Forall (fun r => DirectMessage.sentAt r <= evaluation_time w s)
        (ledger s) ->
      window_count w a s
      = Z.of_nat (length (filter (in_trailing_hour (Automation._id a)
                                    (evaluation_time w s)) (ledger s)))).
Proof.
  split; [| split].
  - intros H. apply processComment_blocked. now right; right.
  - intros H. destruct (Z_lt_ge_dec (window_count w a s) (ceiling a)) as [Hlt | Hge];
      [exact Hlt |].
    destruct (processComment_blocked w a ia c s) as [Hd Ht];
      [now right; right |].
    destruct H as [H | H]; contradiction.
  - intros H. unfold window_count, ledger. now rewrite recent_is_trailing.
Qed.

Lemma rate_limit_gate_witness :
  (window_count (calm []) (rule "any" None (Some 10))
     (start (store0 (rule "any" None (Some 10)) ten_sent)) = 10
   /\ ceiling (rule "any" None (Some 10)) = 10
   /\ db (snd (processComment (calm []) (rule "any" None (Some 10)) acct zoe
                 (start (store0 (rule "any" None (Some 10)) ten_sent))))
      = store0 (rule "any" None (Some 10)) ten_sent
   /\ trace (snd (processComment (calm []) (rule "any" None (Some 10)) acct zoe
                    (start (store0 (rule "any" None (Some 10)) ten_sent))))
      = [])
  /\ window_count (calm []) (rule "any" None (Some 10))
       (start (store0 (rule "any" None (Some 10)) []))
     < ceiling (rule "any" None (Some 10))
  /\ window_count (calm []) (rule "any" None (Some 10))
       (start (store0 (rule "any" None (Some 10)) ten_sent))
     = Z.of_nat (length (filter (in_trailing_hour "auto1"
                                   (evaluation_time (calm [])
                                      (start (store0 (rule "any" None (Some 10))
                                                ten_sent))))
                           ten_sent)).
Proof.
  split; [| split].
  - split; [reflexivity | split; [reflexivity |]].
    apply (proj1 (rate_limit_gate (calm []) (rule "any" None (Some 10)) acct zoe
                    (start (store0 (rule "any" None (Some 10)) ten_sent)))).
    vm_compute. discriminate.
  - apply (proj1 (proj2 (rate_limit_gate (calm []) (rule "any" None (Some 10))
                           acct zoe
                           (start (store0 (rule "any" None (Some 10)) []))))).
    left. vm_compute. discriminate.
  - apply (proj2 (proj2 (rate_limit_gate (calm []) (rule "any" None (Some 10))
                           acct zoe
                           (start (store0 (rule "any" None (Some 10))
                                     ten_sent))))).
    unfold ledger, ten_sent. cbn [start store0 db directMessages map seq].
    repeat (apply Forall_cons; [vm_compute; discriminate |]). apply Forall_nil.
Defined.

(** ** C9: the default ceiling *)

(** C9.  When the [rateLimit] field is absent or zero the ceiling of the rate
    limiter is 10.  In particular a stored ceiling of zero does not block the
    sends: a comment that matches, from a recipient without a record, is
    dispatched (the lookup of its author is called) while fewer than 10
    records are in the window, and is skipped once 10 are. *)
Theorem default_ceiling w a ia c s :
  Automation.rateLimit a = None \/ Automation.rateLimit a = Some 0 ->
  ceiling a = 10
  /\ (triggerMatched w a c = true ->
      store_up w (next s) = true ->
      store_up w (2 + next s) = true ->
      find (dm_for (Automation._id a) (Comment.username c)) (ledger s) = None ->
      window_count w a s < 10 ->
      In (CallUsernameSearch (Account.accessToken ia) (Comment.username c))
        (trace (snd (processComment w a ia c s))))
  /\ (window_count w a s >= 10 ->
      db (snd (processComment w a ia c s)) = db s
      /\ trace (snd (processComment w a ia c s)) = trace s).
Proof.
  intros H.
  assert (ceiling a = 10) as Hc
    by (unfold ceiling; destruct H as [-> | ->]; reflexivity).
  split; [exact Hc | split].
  - intros Ht H1 H2 Hf Hn. apply processComment_dispatch; auto. now rewrite Hc.
  - intros Hn. apply processComment_blocked. right; right. now rewrite Hc.
Qed.

Lemma default_ceiling_witness :
  ceiling (rule "any" None (Some 0)) = 10
  /\ In (CallUsernameSearch "token-1" (Some "zoe"))
       (trace (snd (processComment (calm []) (rule "any" None (Some 0)) acct zoe
                      (start (store0 (rule "any" None (Some 0)) [])))))
  /\ trace (snd (processComment (calm []) (rule "any" None (Some 0)) acct zoe
                   (start (store0 (rule "any" None (Some 0)) ten_sent))))
     = [].
Proof.
  split; [| split].
  - apply (proj1 (default_ceiling (calm []) (rule "any" None (Some 0)) acct zoe
                    (start (store0 (rule "any" None (Some 0)) []))
                    (or_intror eq_refl))).
  - apply (proj1 (proj2 (default_ceiling (calm []) (rule "any" None (Some 0))
                           acct zoe
                           (start (store0 (rule "any" None (Some 0)) []))
                           (or_intror eq_refl))));
      reflexivity.
  - refine (proj2 (proj2 (proj2 (default_ceiling (calm [])
                                   (rule "any" None (Some 0)) acct zoe
                                   (start (store0 (rule "any" None (Some 0))
                                             ten_sent))
                                   (or_intror eq_refl))) _)).
    vm_compute. discriminate.
Defined.

(** ** C10: the record of a comment reply *)

(** C10.  When the reply to a comment goes through, the text sent is
    [commentReply], or the default text when that field is absent, while
    the record appended to [commentReplies] holds the field as it is.  So
    for an automation without [commentReply] the reply sent reads
    "Thanks! Please check your DMs." and the record's [reply] is empty. *)
Theorem reply_record_content w a ia c s :
  Automation.replyToComments a = true ->
  replies w (next s) (Account.accessToken ia) (Comment.id c)
    (or_else (Automation.commentReply a) default_commentReply) = Ok tt ->
  store_up w (3 + next s) = true ->
  replyStep w a ia c s =
    (Return tt,
     mkState (4 + next s)
       (with_commentReplies
          (commentReplies (db s)
           ++ [CommentReply.mk (objectId w (1 + next s)) (Automation._id a)
                 (Comment.id c) (Comment.username c)
                 (Automation.commentReply a) sent (clock w (2 + next s))])
          (db s))
       (trace s
        ++ [CallReplies (Account.accessToken ia) (Comment.id c)
              (or_else (Automation.commentReply a) default_commentReply);
            InsertCommentReply
              (CommentReply.mk (objectId w (1 + next s)) (Automation._id a)
                 (Comment.id c) (Comment.username c)
                 (Automation.commentReply a) sent (clock w (2 + next s)))])
       (frame s))
  /\ (Automation.commentReply a = None ->
      or_else (Automation.commentReply a) default_commentReply
      = "Thanks! Please check your DMs."%string).
Proof.
  intros Hr Hok Hs. split.
  - unfold replyStep, replyToComment. rewrite Hr. unfold_effects. cbn in *.
    rewrite Hok. cbn. rewrite Hs. cbn. now rewrite <- app_assoc.
  - intros ->. reflexivity.
Qed.

Lemma reply_record_content_witness :
  trace (snd (replyStep (calm []) replying acct zoe (start (store0 replying []))))
  = [CallReplies "token-1" "c11" "Thanks! Please check your DMs.";
     InsertCommentReply
       (CommentReply.mk "oid1" "auto1" "c11" (Some "zoe") None sent
          1700000002000)].
Proof.
  rewrite (proj1 (reply_record_content (calm []) replying acct zoe
                    (start (store0 replying []))
                    eq_refl eq_refl eq_refl)).
  reflexivity.
Defined.

(** ** C6: the token flow *)



Section TokenFlow.

Variables (w : Env) (id : string) (acc : Account.t) (s : State).

Hypothesis store_answers : store_up w (next s) = true.
Hypothesis on_file :
  find (fun a => String.eqb (Account._id a) id) (instagramAccounts (db s))
  = Some acc.

Ltac enter :=
  unfold getValidTokenForAccount, refreshInstagramToken; unfold_effects;
  cbn in *; rewrite store_answers; cbn; rewrite on_file; cbn.

Lemma token_probe_ok :
  me w (1 + next s) (Account.accessToken acc) = Ok tt ->
  getValidTokenForAccount w id s =
    (Return (Some (Account.accessToken acc)),
     mkState (2 + next s) (db s)
       (trace s ++ [CallMe (Account.accessToken acc)]) (frame s)).
Proof. intros Hp. enter. rewrite Hp. reflexivity. Qed.

Lemma token_refreshed token ttl :
  me w (1 + next s) (Account.accessToken acc) <> Ok tt ->
  refresh_access_token w (2 + next s) (Account.accessToken acc)
  = Ok (token, ttl) ->
  store_up w (5 + next s) = true ->
  getValidTokenForAccount w id s =
    (Return (Some token),
     mkState (6 + next s)
       (with_accounts
          (update_first
             (fun a => String.eqb (Account._id a) (Account._id acc))
             (set_token token (newExpiryDate w (clock w (3 + next s)) ttl)
                (clock w (4 + next s)))
             (instagramAccounts (db s)))
          (db s))
       (trace s
        ++ [CallMe (Account.accessToken acc);
            CallRefresh (Account.accessToken acc);
            UpdateAccount (Account._id acc) token
              (newExpiryDate w (clock w (3 + next s)) ttl) (clock w (4 + next s))])
       (frame s)).
Proof.
  intros Hp Hr Hs. enter.
  destruct (me w (S (next s)) (Account.accessToken acc)) as [e | m | []];
    [| | contradiction]; cbn; rewrite Hr; cbn; rewrite Hs; cbn;
    now rewrite <- !app_assoc.
Qed.



End TokenFlow.


(** Advancing the seconds of a date goes through local time: the result is
    the date moved by the seconds, off by the difference between the offset
    of the zone at the date and its offset at the local time reached. *)
Lemma newExpiryDate_local w now ttl :
  newExpiryDate w now ttl
  = now + ttl * 1000
    + (localTZA w now true
       - localTZA w (now + localTZA w now true + ttl * 1000) false).
Proof.
  unfold newExpiryDate, setSeconds, getSeconds, UTC, LocalTime.
  assert (forall t n,
            MakeDate (Day t)
              (MakeTime (HourFromTime t) (MinFromTime t) (SecFromTime t + n)
                 (msFromTime t)) = t + n * 1000) as H.
  { intros t n.
    unfold MakeDate, MakeTime, Day, HourFromTime, MinFromTime, SecFromTime,
      msFromTime, msPerDay, msPerHour, msPerMinute, msPerSecond.
    Z.div_mod_to_equations. lia. }
  rewrite H. lia.
Qed.




(** ** C4: a handle that does not resolve *)

(** C4, as the code has it.  When the lookup of the recipient's handle fails
    (the call throws, the response is not [ok], or no user is found), no
    message is sent, and the failure is logged: with the store up, the DM
    step appends one [directMessages] record with status [failed], the
    lookup error and no [type].  The [commentReplies] collection and the
    automation's counters stay as they are. *)
Theorem lookup_failure_logged w a ia c s error :
  lookup_error (Comment.username c)
    (ig_username_search w (next s) (Account.accessToken ia)
       (Comment.username c)) = Some error ->
  store_up w (3 + next s) = true ->
  dmStep w a ia c s =
    (Return tt,
     mkState (4 + next s)
       (with_directMessages
          (directMessages (db s)
           ++ [DirectMessage.mk (objectId w (1 + next s)) (Automation._id a)
                 (Comment.username c) (Comment.id c)
                 (if Automation.useOpeningMessage a
                  then Automation.openingMessage a
                  else Some (Automation.message a))
                 None failed (Some error) (clock w (2 + next s))])
          (db s))
       (trace s
        ++ [CallUsernameSearch (Account.accessToken ia) (Comment.username c);
            InsertDirectMessage
              (DirectMessage.mk (objectId w (1 + next s)) (Automation._id a)
                 (Comment.username c) (Comment.id c)
                 (if Automation.useOpeningMessage a
                  then Automation.openingMessage a
                  else Some (Automation.message a))
                 None failed (Some error) (clock w (2 + next s)))])
       (frame s)).
Proof.
  intros Hl Hs.
  unfold dmStep, sendAndLog, logFailure, sendDirectMessageWithButton,
    sendDirectMessage, send, lookup_error in *.
  unfold_effects. cbn in Hs.
  destruct (Automation.useOpeningMessage a); cbn;
    (destruct (ig_username_search w (next s) (Account.accessToken ia)
                 (Comment.username c)) as [e | m | [| i l]];
     inversion Hl; subst; clear Hl; cbn; rewrite Hs; cbn;
     now rewrite <- !app_assoc).
Qed.

Lemma lookup_failure_logged_witness :
  ledger (snd (dmStep nobody (rule "link" None None) acct ghost
                 (start (store0 (rule "link" None None) []))))
  = [DirectMessage.mk "oid1" "auto1" (Some "ghost"%string) "c1"
       (Some "Hi!"%string) None failed
       (Some "Error: Instagram user @ghost not found"%string) 1700000002000].
Proof.
  rewrite (lookup_failure_logged nobody (rule "link" None None) acct ghost
             (start (store0 (rule "link" None None) []))
             "Error: Instagram user @ghost not found" eq_refl eq_refl).
  reflexivity.
Defined.

(** The claim as worded fails: the handle does not resolve, and the DM step
    leaves a record in [directMessages] all the same. *)
Lemma lookup_failure_leaves_record :
  ig_username_search nobody 0 "token-1" (Some "ghost"%string) = Ok []
  /\ ledger (start (store0 (rule "link" None None) [])) = []
  /\ ledger (snd (dmStep nobody (rule "link" None None) acct ghost
                    (start (store0 (rule "link" None None) [])))) <> [].
Proof. split; [reflexivity | split; [reflexivity |]]. vm_compute. discriminate. Qed.

(** ** C3: a comment fetch that fails *)

(** C3, as the code has it.  When the fetch of a post's comments fails (the
    call throws or the response is not [ok]), [getPostComments] returns the
    empty list and throws nothing; [processPostComments] then goes on as
    after a fetch of no comment: with the store up, it writes the checkpoint
    [lastChecked] of the automation with the current date, and returns. *)
Theorem fetch_failure w post a ia tp ts s :
  (forall cs,
     comments w (next s) (Account.accessToken ia) (Post.instagramId post)
       (match Automation.lastChecked a with Some d => d | None => 0 end)
     <> Ok cs) ->
  getPostComments w (Account.accessToken ia) (Post.instagramId post)
    (match Automation.lastChecked a with Some d => d | None => 0 end) s
  = (Return [],
     mkState (1 + next s) (db s)
       (trace s
        ++ [CallComments (Account.accessToken ia) (Post.instagramId post)
              (match Automation.lastChecked a with Some d => d | None => 0 end)])
       (frame s))
  /\ (store_up w (2 + next s) = true ->
      processPostComments w post a ia tp ts s
      = (Return tt,
         mkState (3 + next s)
           (with_automations
              (update_first
                 (fun x => String.eqb (Automation._id x) (Automation._id a))
                 (set_lastChecked (clock w (1 + next s)))
                 (automations (db s)))
              (db s))
           (trace s
            ++ [CallComments (Account.accessToken ia) (Post.instagramId post)
                  (match Automation.lastChecked a with
                   | Some d => d
                   | None => 0
                   end);
                UpdateLastChecked (Automation._id a) (clock w (1 + next s))])
           (tp + 0, ts))).
Proof.
  intros Hf. split.
  - unfold getPostComments. unfold_effects. cbn.
    destruct (comments w (next s) _ _ _) as [e | m | cs] eqn:E;
      [reflexivity | reflexivity | now destruct (Hf cs)].
  - intros Hs. unfold processPostComments, getPostComments. unfold_effects.
    cbn in *.
    destruct (comments w (next s) _ _ _) as [e | m | cs] eqn:E;
      [| | now destruct (Hf cs)]; cbn; rewrite Hs; cbn;
      now rewrite <- !app_assoc.
Qed.

Lemma fetch_failure_witness :
  fst (getPostComments fetch_down "token-1" "ig-p1" 0
         (start (store0 (rule "any" None None) []))) = Return []
  /\ trace (snd (processPostComments fetch_down post1 (rule "any" None None)
                   acct 0 0 (start (store0 (rule "any" None None) []))))
     = [CallComments "token-1" "ig-p1" 0;
        UpdateLastChecked "auto1" 1700000001000].
Proof.
  split.
  - change (fst (getPostComments fetch_down (Account.accessToken acct)
                   (Post.instagramId post1)
                   (match Automation.lastChecked (rule "any" None None) with
                    | Some d => d
                    | None => 0
                    end)
                   (start (store0 (rule "any" None None) []))) = Return []).
    rewrite (proj1 (fetch_failure fetch_down post1 (rule "any" None None) acct
                      0 0 (start (store0 (rule "any" None None) []))
                      ltac:(discriminate))).
    reflexivity.
  - rewrite (proj2 (fetch_failure fetch_down post1 (rule "any" None None) acct
                      0 0 (start (store0 (rule "any" None None) []))
                      ltac:(discriminate))
               eq_refl).
    reflexivity.
Defined.

(** The claim as worded fails: the fetch fails, and the checkpoint of the
    automation moves from none to the date of the pass. *)
Lemma fetch_failure_moves_checkpoint :
  comments fetch_down 0 "token-1" "ig-p1" 0 = NotOk "Unsupported get request"
  /\ map Automation.lastChecked
       (automations (db (start (store0 (rule "any" None None) []))))
     = [None]
  /\ map Automation.lastChecked
       (automations
          (db (snd (processPostComments fetch_down post1
                      (rule "any" None None) acct 0 0
                      (start (store0 (rule "any" None None) []))))))
     = [Some 1700000001000].
Proof. repeat split. Qed.

(** ** C2: the passes of an automation on any post *)

Lemma checkpoint_writes_app id tr tr' :
  checkpoint_writes id (tr ++ tr')
  = (checkpoint_writes id tr + checkpoint_writes id tr')%nat.
Proof. unfold checkpoint_writes. now rewrite filter_app, length_app. Qed.

Lemma fetched_app tr tr' : fetched (tr ++ tr') = fetched tr ++ fetched tr'.
Proof.
  induction tr as [| e tr IH]; [reflexivity |].
  destruct e; simpl; now rewrite IH.
Qed.

Ltac same_marks :=
  unfold stable, pass_marks, checkpoint_writes; cbn;
  rewrite ?filter_app, ?fetched_app; cbn; rewrite ?app_nil_r; reflexivity.

Lemma processComment_marks id w a ia c :
  keeps (stable (pass_marks id)) (processComment w a ia c).
Proof. keeps_all same_marks. Qed.

(** With a store that is up, the effects on the store do not throw. *)
Ltac total_effect Hup :=
  let s := fresh "s" in
  intro s; unfold_effects; cbn; rewrite ?Hup; cbn; eexists; reflexivity.

Lemma processComment_total w a ia c :
  store_reliable w -> total (processComment w a ia c).
Proof.
  intros Hup. unfold processComment.
  destruct (negb (triggerMatched w a c)); [apply total_ret |].
  apply total_bind; [total_effect Hup | intros [r |]; [apply total_ret |]].
  apply total_bind; [total_effect Hup | intros now].
  apply total_bind; [total_effect Hup | intros recentDMs].
  destruct (recentDMs >=? _); [apply total_ret |].
  apply total_bind; [apply replyStep_total | intros _].
  apply total_try_catch. intros e. unfold logFailure.
  apply total_bind; [total_effect Hup | intros oid].
  apply total_bind; [total_effect Hup | intros date].
  total_effect Hup.
Qed.

Lemma getPostComments_effect w tok pid since s :
  exists cs,
    getPostComments w tok pid since s
    = (Return cs,
       mkState (1 + next s) (db s) (trace s ++ [CallComments tok pid since])
         (frame s)).
Proof.
  unfold getPostComments. unfold_effects. cbn.
  destruct (comments w (next s) tok pid since); eexists; reflexivity.
Qed.

(** The loop over the comments, when it runs to its end. *)
Lemma comment_loop w id a ia cs s :
  store_reliable w ->
  fst (for_of cs (processComment w a ia) s) = Return tt
  /\ pass_marks id (snd (for_of cs (processComment w a ia) s)) = pass_marks id s.
Proof.
  intros Hup. split.
  - destruct (total_for_of cs (processComment w a ia)
                (fun c => processComment_total w a ia c Hup) s) as [[] H].
    exact H.
  - apply (keeps_for_of (stable (pass_marks id))).
    intros c _. apply processComment_marks.
Qed.

(** One pass over a post, with the store up: one fetch, then one checkpoint
    write. *)
Lemma processPostComments_pass w post a ia tp ts s :
  store_reliable w ->
  exists s',
    processPostComments w post a ia tp ts s = (Return tt, s')
    /\ pass_marks (Automation._id a) s'
       = (S (checkpoint_writes (Automation._id a) (trace s)),
          fetched (trace s) ++ [(Post.instagramId post, since_of a)]).
Proof.
  intros Hup. unfold processPostComments. fold (since_of a).
  destruct (getPostComments_effect w (Account.accessToken ia)
              (Post.instagramId post) (since_of a)
              (mkState (next s) (db s) (trace s) (tp, ts))) as [cs Hcs].
  rewrite (bind_return _ _ s tt (mkState (next s) (db s) (trace s) (tp, ts)))
    by reflexivity.
  cbn [next db trace frame] in Hcs.
  match type of Hcs with
  | _ = (_, ?s1) =>
    destruct (comment_loop w (Automation._id a) a ia cs
                (mkState (next s1) (db s1) (trace s1)
                   (tp + Z.of_nat (length cs), ts)) Hup) as [Hr Hm];
    destruct (for_of cs (processComment w a ia)
                (mkState (next s1) (db s1) (trace s1)
                   (tp + Z.of_nat (length cs), ts))) as [r s2] eqn:Hloop
  end.
  cbn [fst snd next db trace frame] in *. subst r.
  eexists. split.
  - apply try_catch_return.
    rewrite (bind_return _ _ _ _ _ Hcs).
    unfold bind at 1 2, get_frame, put_frame.
    cbn [fst snd next db trace frame].
    rewrite (bind_return _ _ _ _ _ Hloop).
    unfold_effects. cbn. rewrite !Hup. cbn. reflexivity.
  - unfold pass_marks in *. cbn [trace] in *. inversion Hm as [[Hc Hf]].
    rewrite checkpoint_writes_app, fetched_app, Hc, Hf.
    rewrite checkpoint_writes_app, fetched_app. cbn.
    rewrite String.eqb_refl, !app_nil_r. f_equal. cbn. lia.
Qed.

(** The loop over the posts: a pass per post, each with the same [since]
    bound, each ending with its own checkpoint write. *)
Lemma post_loop w a ia tp ts on_file : forall s,
  store_reliable w ->
  exists s',
    for_of on_file (fun post => processPostComments w post a ia tp ts) s
    = (Return tt, s')
    /\ pass_marks (Automation._id a) s'
       = ((checkpoint_writes (Automation._id a) (trace s) + length on_file)%nat,
          fetched (trace s)
          ++ map (fun p => (Post.instagramId p, since_of a)) on_file).
Proof.
  induction on_file as [| post on_file IH]; intros s Hup.
  - exists s. split; [reflexivity |]. unfold pass_marks. cbn.
    now rewrite Nat.add_0_r, app_nil_r.
  - destruct (processPostComments_pass w post a ia tp ts s Hup)
      as [s1 [Hrun Hmarks]].
    destruct (IH s1 Hup) as [s2 [Hrest Hmarks2]].
    exists s2. split.
    + cbn [for_of]. now rewrite (bind_return _ _ _ _ _ Hrun).
    + rewrite Hmarks2. unfold pass_marks in Hmarks. inversion Hmarks as [[Hc Hf]].
      rewrite Hc, Hf. cbn [length map]. rewrite <- app_assoc. f_equal. lia.
Qed.

Lemma getPostComments_result w a ia post s :
  getPostComments w (Account.accessToken ia) (Post.instagramId post)
    (since_of a) s
  = (Return (fetched_comments w a ia post s),
     mkState (1 + next s) (db s)
       (trace s
        ++ [CallComments (Account.accessToken ia) (Post.instagramId post)
              (since_of a)])
       (frame s)).
Proof.
  unfold getPostComments, fetched_comments. unfold_effects. cbn.
  now destruct (comments w (next s) _ _ _).
Qed.

(** With the store up, [processPostComments] is the pass, step by step. *)
Lemma processPostComments_is_pass w post a ia tp ts s :
  store_reliable w ->
  processPostComments w post a ia tp ts s
  = (Return tt, one_pass w a ia tp ts s post).
Proof.
  intros Hup. unfold processPostComments, one_pass. fold (since_of a).
  rewrite (bind_return _ _ s tt (mkState (next s) (db s) (trace s) (tp, ts)))
    by reflexivity.
  pose proof (getPostComments_result w a ia post
                (mkState (next s) (db s) (trace s) (tp, ts))) as Hget.
  change (fetched_comments w a ia post
            (mkState (next s) (db s) (trace s) (tp, ts)))
    with (fetched_comments w a ia post s) in Hget.
  cbn [next db trace frame] in Hget.
  set (cs := fetched_comments w a ia post s) in *.
  match goal with
  | |- context [for_of cs ?body ?s1] =>
    destruct (comment_loop w (Automation._id a) a ia cs s1 Hup) as [Hr _];
    destruct (for_of cs body s1) as [r s2] eqn:Hloop
  end.
  cbn [fst snd] in *. subst r.
  apply try_catch_return.
  rewrite (bind_return _ _ _ _ _ Hget).
  unfold bind at 1 2, get_frame, put_frame.
  cbn [fst snd next db trace frame].
  rewrite (bind_return _ _ _ _ _ Hloop).
  unfold write_checkpoint. unfold_effects. cbn. rewrite !Hup. reflexivity.
Qed.

Lemma post_loop_is_passes w a ia tp ts on_file : forall s,
  store_reliable w ->
  for_of on_file (fun post => processPostComments w post a ia tp ts) s
  = (Return tt, fold_left (one_pass w a ia tp ts) on_file s).
Proof.
  induction on_file as [| post on_file IH]; intros s Hup; [reflexivity |].
  cbn [for_of fold_left].
  rewrite (bind_return _ _ _ _ _
             (processPostComments_is_pass w post a ia tp ts s Hup)).
  now apply IH.
Qed.

Lemma pass_events_app id tr tr' :
  pass_events id (tr ++ tr') = pass_events id tr ++ pass_events id tr'.
Proof.
  induction tr as [| e tr IH]; [reflexivity |].
  destruct e; cbn; try (now rewrite IH).
  destruct (String.eqb id0 id); cbn; now rewrite IH.
Qed.

Ltac same_events :=
  unfold stable; cbn; rewrite ?pass_events_app; cbn; rewrite ?app_nil_r;
  reflexivity.

Lemma processComment_events id w a ia c :
  keeps (stable (fun s => pass_events id (trace s))) (processComment w a ia c).
Proof. keeps_all same_events. Qed.

(** The fetch opens the pass and the checkpoint write closes it. *)
Lemma one_pass_events w a ia tp ts s post :
  pass_events (Automation._id a) (trace (one_pass w a ia tp ts s post))
  = pass_events (Automation._id a) (trace s)
    ++ [Fetched (Post.instagramId post) (since_of a); Checkpointed].
Proof.
  unfold one_pass, write_checkpoint. cbn [trace].
  rewrite pass_events_app.
  match goal with
  | |- context [for_of ?cs ?body ?s1] =>
    pose proof (keeps_for_of (stable (fun s => pass_events (Automation._id a)
                                                 (trace s)))
                  cs body
                  (fun c _ => processComment_events (Automation._id a) w a ia c)
                  s1) as Hk
  end.
  unfold stable in Hk. rewrite Hk. cbn [trace].
  rewrite pass_events_app. cbn. rewrite String.eqb_refl.
  now rewrite <- app_assoc.
Qed.

Lemma passes_events w a ia tp ts on_file : forall s,
  pass_events (Automation._id a)
    (trace (fold_left (one_pass w a ia tp ts) on_file s))
  = pass_events (Automation._id a) (trace s)
    ++ flat_map (fun p => [Fetched (Post.instagramId p) (since_of a);
                           Checkpointed]) on_file.
Proof.
  induction on_file as [| post on_file IH]; intros s; cbn [fold_left flat_map].
  - now rewrite app_nil_r.
  - rewrite IH, one_pass_events. now rewrite <- app_assoc.
Qed.

(** C2, as the code has it.  For an automation without target post, on an
    account on file whose token passes the probe, with the store up, one
    run of the automation processes the comments of all N posts on file for
    the account, post after post.  The pass of a post fetches its comments,
    with the same [since] bound for every post (the [lastChecked] the
    automation was loaded with), puts each comment fetched through the
    comment loop, in order, and then writes the checkpoint [lastChecked].
    So the checkpoint is written N times: once at the end of the pass of
    each post, before the next post is fetched. *)
Theorem any_post_passes w a acc tp ts s :
  store_reliable w ->
  truthy (Automation.postId a) = None ->
  find (fun x => String.eqb (Account._id x) (Automation.instagramAccountId a))
    (instagramAccounts (db s)) = Some acc ->
  me w (2 + next s) (Account.accessToken acc) = Ok tt ->
  Account.accessToken acc <> EmptyString ->
  processAutomation w a tp ts s
  = (Return tt,
     fold_left
       (one_pass w a (set_accessToken (Account.accessToken acc) acc) tp ts)
       (filter (fun p => String.eqb (Post.instagramAccountId p)
                           (Account._id acc))
          (posts (db s)))
       (mkState (4 + next s) (db s)
          (trace s ++ [CallMe (Account.accessToken acc)]) (frame s)))
  /\ pass_events (Automation._id a)
       (trace (snd (processAutomation w a tp ts s)))
     = pass_events (Automation._id a) (trace s)
       ++ flat_map (fun p => [Fetched (Post.instagramId p) (since_of a);
                              Checkpointed])
            (filter (fun p => String.eqb (Post.instagramAccountId p)
                                (Account._id acc))
               (posts (db s)))
  /\ fetched (trace (snd (processAutomation w a tp ts s)))
     = fetched (trace s)
       ++ map (fun p => (Post.instagramId p, since_of a))
            (filter (fun p => String.eqb (Post.instagramAccountId p)
                                (Account._id acc))
               (posts (db s)))
  /\ checkpoint_writes (Automation._id a)
       (trace (snd (processAutomation w a tp ts s)))
     = (checkpoint_writes (Automation._id a) (trace s)
        + length (filter (fun p => String.eqb (Post.instagramAccountId p)
                                     (Account._id acc))
                    (posts (db s))))%nat.
Proof.
  intros Hup Hany Hacc Hprobe Htok.
  assert (Account._id acc = Automation.instagramAccountId a) as Hid
    by (apply find_some in Hacc; now apply String.eqb_eq).
  assert (truthy (Some (Account.accessToken acc))
          = Some (Account.accessToken acc)) as Htruthy.
  { cbn. destruct (String.eqb_spec (Account.accessToken acc) EmptyString);
      [contradiction | reflexivity]. }
  pose proof (post_loop_is_passes w a
                (set_accessToken (Account.accessToken acc) acc) tp ts
                (filter (fun p => String.eqb (Post.instagramAccountId p)
                                    (Account._id acc))
                   (posts (db s)))
                (mkState (4 + next s) (db s)
                   (trace s ++ [CallMe (Account.accessToken acc)]) (frame s))
                Hup) as Hloop.
  destruct (post_loop w a (set_accessToken (Account.accessToken acc) acc) tp ts
              (filter (fun p => String.eqb (Post.instagramAccountId p)
                                  (Account._id acc))
                 (posts (db s)))
              (mkState (4 + next s) (db s)
                 (trace s ++ [CallMe (Account.accessToken acc)]) (frame s))
              Hup) as [s' [Hloop' Hmarks]].
  rewrite Hloop in Hloop'. inversion Hloop' as [Hs']. clear Hloop'.
  subst s'.
  assert (processAutomation w a tp ts s
          = (Return tt,
             fold_left
               (one_pass w a (set_accessToken (Account.accessToken acc) acc)
                  tp ts)
               (filter (fun p => String.eqb (Post.instagramAccountId p)
                                   (Account._id acc))
                  (posts (db s)))
               (mkState (4 + next s) (db s)
                  (trace s ++ [CallMe (Account.accessToken acc)]) (frame s))))
    as Hrun.
  { unfold processAutomation. apply try_catch_return.
    unfold findOne_account at 1, store_op.
    unfold bind at 1 2 3. unfold bind at 1. cbn. rewrite Hup. cbn.
    rewrite Hacc. unfold bind at 1.
    rewrite (token_probe_ok w (Account._id acc) acc
               (mkState (S (next s)) (db s) (trace s) (frame s)));
      [| apply Hup | cbn; now rewrite Hid | exact Hprobe].
    rewrite Htruthy, Hany.
    unfold find_posts, store_op. unfold bind at 1 2 3. unfold bind at 1. cbn.
    rewrite Hup. cbn. exact Hloop. }
  rewrite Hrun. cbn [fst snd]. split; [reflexivity |]. split.
  - rewrite passes_events. cbn [trace]. rewrite pass_events_app. cbn.
    now rewrite app_nil_r.
  - unfold pass_marks in Hmarks. cbn [trace] in Hmarks.
    rewrite checkpoint_writes_app, fetched_app in Hmarks.
    cbn [checkpoint_writes fetched filter is_checkpoint length] in Hmarks.
    rewrite Nat.add_0_r, app_nil_r in Hmarks.
    injection Hmarks as Hc Hf. split; [exact Hf | exact Hc].
Qed.

Lemma any_post_passes_witness :
  pass_events "auto1"
    (trace (snd (processAutomation (calm []) (rule "any" None None) 0 0
                   (start (store0 (rule "any" None None) [])))))
  = [Fetched "ig-p1" 0; Checkpointed; Fetched "ig-p2" 0; Checkpointed]
  /\ fetched (trace (snd (processAutomation (calm []) (rule "any" None None) 0 0
                            (start (store0 (rule "any" None None) [])))))
     = [("ig-p1"%string, 0); ("ig-p2"%string, 0)]
  /\ checkpoint_writes "auto1"
       (trace (snd (processAutomation (calm []) (rule "any" None None) 0 0
                      (start (store0 (rule "any" None None) [])))))
     = 2%nat.
Proof.
  destruct (any_post_passes (calm []) (rule "any" None None) acct 0 0
              (start (store0 (rule "any" None None) []))
              (fun _ => eq_refl) eq_refl eq_refl eq_refl ltac:(discriminate))
    as [_ [He [Hf Hc]]].
  split; [exact He | split; [exact Hf | exact Hc]].
Defined.

(** The claim as worded fails: with two posts on file, one run writes the
    checkpoint twice, the first time before the second post is fetched. *)
Lemma checkpoint_written_per_post :
  trace (snd (checkComments (calm []) (start (store0 (rule "any" None None) []))))
  = [CallMe "token-1";
     CallComments "token-1" "ig-p1" 0;
     UpdateLastChecked "auto1" 1700000007000;
     CallComments "token-1" "ig-p2" 0;
     UpdateLastChecked "auto1" 1700000010000]
  /\ checkpoint_writes "auto1"
       (trace (snd (checkComments (calm [])
                      (start (store0 (rule "any" None None) [])))))
     <> 1%nat.
Proof. split; [reflexivity | vm_compute; discriminate]. Qed.

(** ** C1: at most one delivery per automation and recipient *)

Lemma option_eqb_eq a b : option_eqb a b = true -> a = b.
Proof.
  destruct a as [x |], b as [y |]; cbn; try discriminate; [| reflexivity].
  intros H. apply String.eqb_eq in H. now subst.
Qed.

Lemma dm_for_pair id u r :
  dm_for id u r = true ->
  DirectMessage.automationId r = id /\ DirectMessage.recipientUsername r = u.
Proof.
  unfold dm_for. intros H. apply andb_prop in H. destruct H as [H1 H2].
  split; [now apply String.eqb_eq | now apply option_eqb_eq].
Qed.

Lemma filter_none {A} (f : A -> bool) l :
  (forall x, In x l -> f x = false) -> filter f l = [].
Proof.
  induction l as [| y l IH]; intros H; [reflexivity |]. cbn.
  rewrite (H y) by now left. apply IH. intros x Hx. apply H. now right.
Qed.

Lemma grows_trans l1 l2 l3 : grows l1 l2 -> grows l2 l3 -> grows l1 l3.
Proof.
  intros H12 H23. induction H23 as [| l3 r H23 IH Hr | l3 r H23 IH Hr].
  - exact H12.
  - apply grows_failed; auto.
  - apply grows_first; auto.
Qed.

#[export] Instance ledger_grows_preorder : PreOrder ledger_grows.
Proof.
  split.
  - intro s. apply grows_same.
  - intros s1 s2 s3. apply grows_trans.
Qed.

(** Growth keeps the ledger at most once. *)
Lemma grows_at_most_once l l' :
  grows l l' -> at_most_once l -> at_most_once l'.
Proof.
  intros Hg Hl. induction Hg as [| l' r Hg IH Hr | l' r Hg IH Hr];
    [exact Hl | |]; intros id u;
    rewrite filter_app, length_app; cbn [filter].
  - unfold delivered at 2. rewrite Hr. cbn [is_sent].
    rewrite andb_false_r. cbn. specialize (IH id u). lia.
  - destruct (delivered id u r) eqn:Hd; cbn [length];
      [| specialize (IH id u); lia].
    assert (dm_for id u r = true) as Hp.
    { unfold delivered in Hd. apply andb_prop in Hd. destruct Hd as [Hd _].
      apply andb_prop in Hd. now destruct Hd. }
    apply dm_for_pair in Hp. destruct Hp as [<- <-].
    assert (filter (delivered (DirectMessage.automationId r)
                      (DirectMessage.recipientUsername r)) l' = []) as ->.
    { apply filter_none. intros x Hx.
      pose proof (find_none _ _ Hr x Hx) as Hn. unfold delivered.
      now rewrite Hn. }
    cbn. lia.
Qed.

Ltac ledger_kept := unfold ledger_grows, ledger; cbn; apply grows_same.

(** The DM step appends to the ledger, and what it appends is a first record
    of the pair or the record of a failure (or both: the message sent and
    logged, then the update of the counters failing). *)
Lemma dmStep_grows w a ia c s :
  find (dm_for (Automation._id a) (Comment.username c)) (ledger s) = None ->
  ledger_grows s (snd (dmStep w a ia c s)).
Proof.
  intros Hf. unfold ledger_grows, ledger in *.
  unfold dmStep, sendAndLog, logFailure, sendDirectMessageWithButton,
    sendDirectMessage, send.
  run_effects;
    repeat first
      [ apply grows_same
      | apply grows_failed; [| reflexivity]
      | apply grows_first; [| cbn; exact Hf] ].
Qed.

Lemma processComment_grows w a ia c :
  keeps ledger_grows (processComment w a ia c).
Proof.
  intro s. rewrite processComment_gate.
  destruct (negb (triggerMatched w a c)); [apply grows_same |].
  destruct (negb (store_up w (next s))); [apply grows_same |].
  destruct (find _ (ledger s)) eqn:Hf; [apply grows_same |].
  destruct (negb (store_up w (S (S (next s))))); [apply grows_same |].
  destruct (window_count w a s >=? ceiling a); [apply grows_same |].
  unfold bind.
  pose proof (replyStep_ledger w a ia c (advance 3 s)) as Hr.
  destruct (replyStep w a ia c (advance 3 s)) as [[u | e] s1];
    unfold stable in Hr; cbn in Hr.
  - unfold ledger_grows. change (ledger s) with (ledger (advance 3 s)).
    rewrite <- Hr. apply dmStep_grows. rewrite Hr. exact Hf.
  - unfold ledger_grows. cbn. change (ledger s) with (ledger (advance 3 s)).
    rewrite <- Hr. apply grows_same.
Qed.

#[export] Hint Resolve processComment_grows : keeps_db.

Lemma checkComments_grows w : keeps ledger_grows (checkComments w).
Proof. keeps_all ledger_kept. Qed.

(** Any number of runs keeps the ledger at most once. *)
Lemma after_runs_at_most_once s s' :
  after_runs s s' -> at_most_once (ledger s) -> at_most_once (ledger s').
Proof.
  intros Hruns Hs. induction Hruns as [s | w s s' Hruns IH | s s' s'' Hruns IH He].
  - exact Hs.
  - apply (grows_at_most_once (ledger s')); [apply checkComments_grows | auto].
  - unfold ledger in *. rewrite He. auto.
Qed.

(** C1.  A comment of a recipient for whom the ledger holds a record of the
    automation, whatever its status, changes neither the store nor the trace:
    nothing is sent, replied or logged.  Hence at-most-once delivery: if no
    pair of automation and recipient has two records with status [sent] and
    kind [direct] or [opening], then after any number of sequential runs of
    the job (in any worlds, the other collections edited at will in between)
    no pair has. *)
Theorem at_most_once_delivery :
  (forall w a ia c s r,
     In r (ledger s) ->
     dm_for (Automation._id a) (Comment.username c) r = true ->
     db (snd (processComment w a ia c s)) = db s
     /\ trace (snd (processComment w a ia c s)) = trace s)
  /\ (forall s s',
        after_runs s s' -> at_most_once (ledger s) -> at_most_once (ledger s')).
Proof.
  split.
  - intros w a ia c s r Hin Hr. apply processComment_blocked. right. left.
    destruct (find (dm_for (Automation._id a) (Comment.username c)) (ledger s))
      as [r' |] eqn:Hf; [now exists r' |].
    rewrite (find_none _ _ Hf r Hin) in Hr. discriminate.
  - exact after_runs_at_most_once.
Qed.

Lemma at_most_once_delivery_witness :
  (db (snd (processComment (calm []) (rule "any" None None) acct zoe
              (start (store0 (rule "any" None None)
                        [failed_to "zoe" 1600000000000]))))
   = store0 (rule "any" None None) [failed_to "zoe" 1600000000000]
   /\ trace (snd (processComment (calm []) (rule "any" None None) acct zoe
                    (start (store0 (rule "any" None None)
                              [failed_to "zoe" 1600000000000]))))
      = [])
  /\ at_most_once
       (ledger (snd (checkComments one_comment
                       (snd (checkComments one_comment (start one_post)))))).
Proof.
  split.
  - apply (proj1 at_most_once_delivery (calm []) (rule "any" None None) acct zoe
             (start (store0 (rule "any" None None)
                       [failed_to "zoe" 1600000000000]))
             (failed_to "zoe" 1600000000000)).
    + left. reflexivity.
    + reflexivity.
  - apply (proj2 at_most_once_delivery (start one_post)).
    + apply runs_job. apply runs_job. apply runs_none.
    + intros id u. cbn. lia.
Defined.

(** ** C5: the counters of the run summary *)

(** The summary of a run that succeeds always reports zero comments and zero
    messages: [checkComments] hands its two constants to
    [processPostComments] by value and reports them as they are. *)
Lemma summary_counters_zero w s :
  match fst (checkComments w s) with
  | Return (Success _ commentsProcessed messagesSent) =>
    commentsProcessed = 0 /\ messagesSent = 0
  | _ => True
  end.
Proof.
  unfold checkComments, finally, try_catch.
  unfold bind at 1.
  destruct (store_op w s) as [[[] | e] s1].
  - unfold bind at 1.
    destruct (find_active_automations w s1) as [[l | e] s2].
    + unfold bind at 1.
      destruct (for_of l _ s2) as [[[] | e] s3]; cbn;
        destruct (store_up w (next s3)); cbn; auto.
    + cbn. destruct (store_up w (next s2)); cbn; auto.
  - cbn. destruct (store_up w (next s1)); cbn; auto.
Qed.

(** C5 fails on the code.  A run in which one comment is fetched and one
    message is sent and logged reports [commentsProcessed = 0] and
    [messagesSent = 0]; the counts are in the callee's own copies of the two
    numbers (1 and 1), which are lost when it returns.  And so does every
    run that succeeds. *)
Theorem summary_ignores_work :
  fst (checkComments one_comment (start one_post)) = Return (Success 1 0 0)
  /\ fetched (trace (snd (checkComments one_comment (start one_post))))
     = [("ig-p1"%string, 0)]
  /\ comments one_comment 6 "token-1" "ig-p1" 0
     = Ok [raw "c1" "LINK please" "bob"]
  /\ map DirectMessage.status
       (ledger (snd (checkComments one_comment (start one_post))))
     = [sent]
  /\ frame (snd (checkComments one_comment (start one_post))) = (1, 1)
  /\ (forall w s,
        match fst (checkComments w s) with
        | Return (Success _ commentsProcessed messagesSent) =>
          commentsProcessed = 0 /\ messagesSent = 0
        | _ => True
        end).
Proof.
  repeat split; try reflexivity. intros w s. apply summary_counters_zero.
Qed.

(** * Further properties of the code *)

(** ** The DM step *)

(** Writes the hypothesis on the message endpoint with the arguments as the
    goal has them. *)
Ltac align_send H :=
  match goal with
  | |- context [messages ?w ?t ?a ?b ?c ?d ?e] =>
    match type of H with
    | messages _ _ _ _ _ _ _ = ?r => change (messages w t a b c d e = r) in H
    | send_error (messages _ _ _ _ _ _ _) = ?r =>
      change (send_error (messages w t a b c d e) = r) in H
    end
  end.

(** X1.  A DM step whose lookup and send go through, with the store up: the
    message goes to the first user found, in either mode; the record logged
    has status [sent], the kind of the mode, and as message the very text
    that was sent (the branding included); the callee's copy of [totalSent]
    and the counter of the automation go up by one. *)
Theorem dm_delivered w a ia c s recipientId others :
  ig_username_search w (next s) (Account.accessToken ia) (Comment.username c)
  = Ok (recipientId :: others) ->
  messages w (1 + next s) (Account.accessToken ia) (Account.instagramId ia)
    recipientId (dm_text a) (dm_quick a) = Ok tt ->
  store_up w (4 + next s) = true ->
  store_up w (6 + next s) = true ->
  dmStep w a ia c s =
    (Return tt,
     mkState (7 + next s)
       (with_automations
          (update_first
             (fun x => String.eqb (Automation._id x) (Automation._id a))
             (bump_stats (clock w (5 + next s))) (automations (db s)))
          (with_directMessages
             (directMessages (db s)
              ++ [DirectMessage.mk (objectId w (2 + next s)) (Automation._id a)
                    (Comment.username c) (Comment.id c) (Some (dm_text a))
                    (Some (dm_kind a)) sent None (clock w (3 + next s))])
             (db s)))
       (trace s
        ++ [CallUsernameSearch (Account.accessToken ia) (Comment.username c);
            CallMessages (Account.accessToken ia) (Account.instagramId ia)
              recipientId (dm_text a) (dm_quick a);
            InsertDirectMessage
              (DirectMessage.mk (objectId w (2 + next s)) (Automation._id a)
                 (Comment.username c) (Comment.id c) (Some (dm_text a))
                 (Some (dm_kind a)) sent None (clock w (3 + next s)));
            UpdateStats (Automation._id a) (clock w (5 + next s))])
       (fst (frame s), snd (frame s) + 1)).
Proof.
  intros Hl Hm H4 H6.
  unfold dmStep, sendAndLog, logFailure, sendDirectMessageWithButton,
    sendDirectMessage, send, dm_text, dm_quick, dm_kind, opening_text,
    opening_button, full_message in *.
  unfold_effects. cbn in H4, H6.
  destruct (Automation.useOpeningMessage a); cbn; rewrite Hl; cbn;
    align_send Hm; rewrite Hm; cbn; rewrite H4; cbn; rewrite H6; cbn;
    now rewrite <- !app_assoc.
Qed.

Lemma dm_delivered_witness :
  map DirectMessage.message
    (ledger (snd (dmStep (calm []) branded acct bob (start (store0 branded [])))))
  = [Some ("Hi!" ++ nl ++ nl ++ "via X")%string]
  /\ map Automation.totalDMsSent
       (automations
          (db (snd (dmStep (calm []) branded acct bob
                      (start (store0 branded []))))))
     = [1].
Proof.
  rewrite (dm_delivered (calm []) branded acct bob (start (store0 branded []))
             "17841400000000001" [] eq_refl eq_refl eq_refl eq_refl).
  split; reflexivity.
Defined.

(** X2.  A DM step whose lookup goes through and whose send does not (the
    call throws or the response is not [ok]), with the store up: one record
    with status [failed], the error and no kind is logged, and neither the
    counter of the automation nor the callee's [totalSent] moves.  The
    record holds the template as stored ([openingMessage] or [message]),
    not the text that was sent: no default, no branding. *)
Theorem send_failure_logged w a ia c s recipientId others error :
  ig_username_search w (next s) (Account.accessToken ia) (Comment.username c)
  = Ok (recipientId :: others) ->
  send_error (messages w (1 + next s) (Account.accessToken ia)
                (Account.instagramId ia) recipientId (dm_text a) (dm_quick a))
  = Some error ->
  store_up w (4 + next s) = true ->
  dmStep w a ia c s =
    (Return tt,
     mkState (5 + next s)
       (with_directMessages
          (directMessages (db s)
           ++ [DirectMessage.mk (objectId w (2 + next s)) (Automation._id a)
                 (Comment.username c) (Comment.id c) (raw_template a) None
                 failed (Some error) (clock w (3 + next s))])
          (db s))
       (trace s
        ++ [CallUsernameSearch (Account.accessToken ia) (Comment.username c);
            CallMessages (Account.accessToken ia) (Account.instagramId ia)
              recipientId (dm_text a) (dm_quick a);
            InsertDirectMessage
              (DirectMessage.mk (objectId w (2 + next s)) (Automation._id a)
                 (Comment.username c) (Comment.id c) (raw_template a) None
                 failed (Some error) (clock w (3 + next s)))])
       (frame s)).
Proof.
  intros Hl Hm H4.
  unfold dmStep, sendAndLog, logFailure, sendDirectMessageWithButton,
    sendDirectMessage, send, dm_text, dm_quick, raw_template,
    opening_text, opening_button, full_message in *.
  unfold_effects. cbn in H4.
  destruct (Automation.useOpeningMessage a); cbn; rewrite Hl; cbn;
    align_send Hm;
    (destruct (messages w (S (next s)) _ _ _ _ _) as [e | m | u];
     cbn in Hm; inversion Hm; subst; cbn; rewrite H4; cbn;
     now rewrite <- !app_assoc).
Qed.

Lemma send_failure_logged_witness :
  map (fun r => (DirectMessage.message r, DirectMessage.status r))
    (ledger (snd (dmStep (rejecting (calm [])) with_button acct bob
                    (start (store0 with_button [])))))
  = [(None, failed)]
  /\ In (CallMessages "token-1" "178414" "17841400000000001"
           default_openingMessage
           (Some ("Send me the link", "SEND_CONTENT_auto1")%string))
       (trace (snd (dmStep (rejecting (calm [])) with_button acct bob
                      (start (store0 with_button [])))))
  /\ map Automation.totalDMsSent
       (automations
          (db (snd (dmStep (rejecting (calm [])) with_button acct bob
                      (start (store0 with_button []))))))
     = [0].
Proof.
  rewrite (send_failure_logged (rejecting (calm [])) with_button acct bob
             (start (store0 with_button [])) "17841400000000001" []
             "Error: Failed to send direct message: (#10) outside of allowed window"
             eq_refl eq_refl eq_refl).
  split; [reflexivity | split; [| reflexivity]].
  right. left. reflexivity.
Defined.

(** ** The reply step *)

(** X3.  The reply to the comment is best effort and never stops the
    dispatch.  Without [replyToComments] the step does nothing.  When the
    reply call throws or is refused, the step returns normally, with the
    call made and the store as it was.  When the reply goes through and the
    insertion of its record fails, the step returns normally too: the reply
    stays posted without a record in [commentReplies]. *)
Theorem reply_is_best_effort w a ia c s :
  (Automation.replyToComments a = false ->
   replyStep w a ia c s = (Return tt, s))
  /\ (Automation.replyToComments a = true ->
      (forall u,
         replies w (next s) (Account.accessToken ia) (Comment.id c)
           (or_else (Automation.commentReply a) default_commentReply)
         <> Ok u) ->
      replyStep w a ia c s
      = (Return tt,
         mkState (1 + next s) (db s)
           (trace s
            ++ [CallReplies (Account.accessToken ia) (Comment.id c)
                  (or_else (Automation.commentReply a) default_commentReply)])
           (frame s)))
  /\ (Automation.replyToComments a = true ->
      replies w (next s) (Account.accessToken ia) (Comment.id c)
        (or_else (Automation.commentReply a) default_commentReply) = Ok tt ->
      store_up w (3 + next s) = false ->
      replyStep w a ia c s
      = (Return tt,
         mkState (4 + next s) (db s)
           (trace s
            ++ [CallReplies (Account.accessToken ia) (Comment.id c)
                  (or_else (Automation.commentReply a) default_commentReply)])
           (frame s))).
Proof.
  unfold replyStep, replyToComment. split; [| split].
  - intros ->. reflexivity.
  - intros -> Hr. unfold_effects. cbn.
    destruct (replies w (next s) _ _ _) as [e | m | u];
      [reflexivity | reflexivity | now destruct (Hr u)].
  - intros -> Hr Hs. unfold_effects. cbn in *. rewrite Hr. cbn. rewrite Hs.
    reflexivity.
Qed.

Lemma reply_is_best_effort_witness :
  replyStep (calm []) (rule "any" None None) acct bob
    (start (store0 (rule "any" None None) []))
  = (Return tt, start (store0 (rule "any" None None) []))
  /\ db (snd (replyStep (no_reply (calm [])) replying acct bob
                (start (store0 replying []))))
     = store0 replying []
  /\ db (snd (replyStep (store_down_at 3 (calm [])) replying acct bob
                (start (store0 replying []))))
     = store0 replying [].
Proof.
  split; [| split].
  - apply (proj1 (reply_is_best_effort (calm []) (rule "any" None None) acct bob
                    (start (store0 (rule "any" None None) [])))).
    reflexivity.
  - rewrite (proj1 (proj2 (reply_is_best_effort (no_reply (calm [])) replying
                             acct bob (start (store0 replying []))))
               eq_refl ltac:(discriminate)).
    reflexivity.
  - rewrite (proj2 (proj2 (reply_is_best_effort (store_down_at 3 (calm []))
                             replying acct bob (start (store0 replying []))))
               eq_refl eq_refl eq_refl).
    reflexivity.
Defined.

(** ** The comment loop *)

(** X4.  The gates of the comment loop, exactly: a comment causes a remote
    call or a write if and only if it matches the trigger, the dedup query
    succeeds and finds no record of the pair, the count of the rate limiter
    succeeds and is below the ceiling.  In every other case the trace stays
    as it was. *)
Theorem dispatch_condition w a ia c s :
  trace (snd (processComment w a ia c s)) <> trace s
  <-> (triggerMatched w a c = true
       /\ store_up w (next s) = true
       /\ find (dm_for (Automation._id a) (Comment.username c)) (ledger s) = None
       /\ store_up w (2 + next s) = true
       /\ window_count w a s < ceiling a).
Proof.
  split.
  - intros H. rewrite processComment_gate in H. cbn.
    destruct (triggerMatched w a c); cbn [negb] in H; [| now destruct H].
    destruct (store_up w (next s)); cbn [negb] in H; [| now destruct H].
    destruct (find _ (ledger s)); [now destruct H |].
    destruct (store_up w (S (S (next s)))); cbn [negb] in H; [| now destruct H].
    destruct (window_count w a s >=? ceiling a) eqn:E; [now destruct H |].
    repeat split. lia.
  - intros [Ht [H1 [Hf [H2 Hc]]]] Heq. cbn in H2.
    rewrite processComment_gate, Ht, H1, H2, Hf in Heq. cbn [negb] in Heq.
    destruct (window_count w a s >=? ceiling a) eqn:E; [lia |].
    unfold bind at 1 in Heq.
    pose proof (replyStep_trace w a ia c (advance 3 s)) as [l Hl].
    destruct (replyStep_total w a ia c (advance 3 s)) as [u Hu].
    destruct (replyStep w a ia c (advance 3 s)) as [r s1]. cbn in Hl, Hu.
    subst r. destruct (dmStep_attempts w a ia c s1) as [l' Hl'].
    rewrite Hl', Hl in Heq. apply (f_equal (@length Event)) in Heq.
    rewrite !length_app in Heq. cbn in Heq. lia.
Qed.

Lemma dispatch_condition_witness :
  trace (snd (processComment (calm []) (rule "any" None None) acct zoe
                (start (store0 (rule "any" None None) []))))
  <> [].
Proof.
  apply (proj2 (dispatch_condition (calm []) (rule "any" None None) acct zoe
                  (start (store0 (rule "any" None None) [])))).
  repeat split.
Defined.

Lemma option_eqb_refl a : option_eqb a a = true.
Proof. destruct a; cbn; [apply String.eqb_refl | reflexivity]. Qed.

(** With the store up, the DM step logs exactly one record, of the pair. *)
Lemma dmStep_records w a ia c s :
  store_reliable w ->
  exists r,
    ledger (snd (dmStep w a ia c s)) = ledger s ++ [r]
    /\ dm_for (Automation._id a) (Comment.username c) r = true.
Proof.
  intros Hup. unfold ledger.
  unfold dmStep, sendAndLog, logFailure, sendDirectMessageWithButton,
    sendDirectMessage, send.
  run_effects;
    try match goal with
        | H : store_up w _ = false |- _ => rewrite Hup in H; discriminate
        end;
    eexists; (split; [reflexivity |]); unfold dm_for; cbn;
    now rewrite String.eqb_refl, option_eqb_refl.
Qed.

(** X5.  Every dispatch leaves a record, and a recipient is attempted once:
    with the store up, a comment that passes the gates appends exactly one
    record of its pair to [directMessages], whether the message went out or
    not; after that, no comment of the same author does anything under this
    automation, in any world. *)
Theorem dispatch_is_recorded w a ia c s :
  store_reliable w ->
  triggerMatched w a c = true ->
  find (dm_for (Automation._id a) (Comment.username c)) (ledger s) = None ->
  window_count w a s < ceiling a ->
  (exists r,
     ledger (snd (processComment w a ia c s)) = ledger s ++ [r]
     /\ dm_for (Automation._id a) (Comment.username c) r = true)
  /\ (forall w' ia' c',
        Comment.username c' = Comment.username c ->
        db (snd (processComment w' a ia' c' (snd (processComment w a ia c s))))
        = db (snd (processComment w a ia c s))
        /\ trace (snd (processComment w' a ia' c'
                         (snd (processComment w a ia c s))))
           = trace (snd (processComment w a ia c s))).
Proof.
  intros Hup Ht Hf Hc.
  assert (exists r,
            ledger (snd (processComment w a ia c s)) = ledger s ++ [r]
            /\ dm_for (Automation._id a) (Comment.username c) r = true)
    as [r [Hl Hr]].
  { rewrite processComment_gate, Ht, !Hup, Hf. cbn [negb].
    destruct (window_count w a s >=? ceiling a) eqn:E; [lia |].
    unfold bind at 1.
    pose proof (replyStep_ledger w a ia c (advance 3 s)) as Hs.
    destruct (replyStep_total w a ia c (advance 3 s)) as [u Hu].
    destruct (replyStep w a ia c (advance 3 s)) as [o s1]. cbn in Hs, Hu.
    subst o. unfold stable in Hs.
    destruct (dmStep_records w a ia c s1 Hup) as [r [Hl Hr]].
    exists r. split; [| exact Hr]. rewrite Hl, Hs. reflexivity. }
  split; [now exists r |].
  intros w' ia' c' Hu. apply processComment_blocked. right. left.
  rewrite Hu.
  destruct (find (dm_for (Automation._id a) (Comment.username c))
              (ledger (snd (processComment w a ia c s)))) as [r' |] eqn:Hn;
    [now exists r' |].
  assert (In r (ledger (snd (processComment w a ia c s)))) as Hin
    by (rewrite Hl; apply in_or_app; right; now left).
  rewrite (find_none _ _ Hn r Hin) in Hr. discriminate.
Qed.

Lemma dispatch_is_recorded_witness :
  trace (snd (processComment (rejecting (calm [])) (rule "any" None None) acct zoe
                (snd (processComment (rejecting (calm []))
                        (rule "any" None None) acct zoe
                        (start (store0 (rule "any" None None) []))))))
  = trace (snd (processComment (rejecting (calm [])) (rule "any" None None)
                  acct zoe (start (store0 (rule "any" None None) [])))).
Proof.
  apply (proj2 (dispatch_is_recorded (rejecting (calm []))
                  (rule "any" None None) acct zoe
                  (start (store0 (rule "any" None None) []))
                  (fun _ => eq_refl) eq_refl eq_refl eq_refl)
           (rejecting (calm [])) acct zoe eq_refl).
Defined.

(** X6.  A negative [rateLimit] is truthy, so it is the ceiling as it is,
    and no count is below it: the automation never dispatches anything. *)
Theorem negative_limit_blocks w a ia c s n :
  Automation.rateLimit a = Some n ->
  n < 0 ->
  db (snd (processComment w a ia c s)) = db s
  /\ trace (snd (processComment w a ia c s)) = trace s.
Proof.
  intros Hr Hn. apply processComment_blocked. right. right.
  unfold ceiling, window_count. rewrite Hr. cbn.
  destruct (Z.eqb_spec n 0); lia.
Qed.

Lemma negative_limit_blocks_witness :
  trace (snd (processComment (calm []) (rule "any" None (Some (-1))) acct zoe
                (start (store0 (rule "any" None (Some (-1))) []))))
  = [].
Proof.
  apply (negative_limit_blocks (calm []) (rule "any" None (Some (-1))) acct zoe
           (start (store0 (rule "any" None (Some (-1))) [])) (-1) eq_refl).
  reflexivity.
Defined.

(** X7.  A keyword whose lower case is the empty string matches every
    comment: the empty keyword is a wildcard like [any]. *)
Theorem empty_keyword_matches_all w a c :
  toLowerCase w (Automation.triggerKeyword a) = EmptyString ->
  triggerMatched w a c = true.
Proof.
  intros H. unfold triggerMatched. rewrite H.
  destruct (toLowerCase w (Comment.text c)); cbn; apply orb_true_r.
Qed.

Lemma empty_keyword_matches_all_witness :
  triggerMatched (calm []) (rule EmptyString None None) zoe = true.
Proof.
  apply (empty_keyword_matches_all (calm []) (rule EmptyString None None) zoe).
  reflexivity.
Defined.

(** ** The run *)

Lemma processAutomation_total w a tp ts : total (processAutomation w a tp ts).
Proof. unfold processAutomation. apply total_try_catch. intros e. apply total_ret. Qed.

(** The loop over the automations runs to its end, whatever happens inside. *)
Lemma automation_loop w l s :
  exists s',
    for_of l (fun a => processAutomation w a 0 0) s = (Return tt, s').
Proof.
  destruct (total_for_of l (fun a => processAutomation w a 0 0)
              (fun a => processAutomation_total w a 0 0) s) as [[] H].
  destruct (for_of l _ s) as [r s']. cbn in H. subst r. now exists s'.
Qed.

Lemma store_op_up w s :
  store_up w (next s) = true -> store_op w s = (Return tt, advance 1 s).
Proof. intros H. unfold store_op. unfold_effects. cbn. now rewrite H. Qed.

Lemma find_active_up w s :
  store_up w (next s) = true ->
  find_active_automations w s
  = (Return (filter Automation.active (automations (db s))), advance 1 s).
Proof.
  intros H. unfold find_active_automations. unfold_effects. cbn.
  now rewrite H.
Qed.

(** What [checkComments] comes to once the connection and the query of the
    automations have succeeded: the result hangs on the closing alone. *)
Lemma checkComments_connected w s :
  store_up w (next s) = true ->
  store_up w (1 + next s) = true ->
  exists s',
    checkComments w s
    = if store_up w (next s')
      then (Return (Success (length (filter Automation.active
                                        (automations (db s)))) 0 0),
            advance 1 s')
      else (Throw (store_error w (next s')), advance 1 s').
Proof.
  intros H0 H1.
  destruct (automation_loop w (filter Automation.active (automations (db s)))
              (advance 1 (advance 1 s))) as [s' Hloop].
  exists s'. unfold checkComments, finally.
  rewrite (try_catch_return _ _ s
             (Success (length (filter Automation.active (automations (db s))))
                0 0) s').
  - unfold store_op. unfold_effects. cbn.
    destruct (store_up w (next s')); reflexivity.
  - rewrite (bind_return _ _ _ _ _ (store_op_up w s H0)).
    rewrite (bind_return _ _ _ _ _ (find_active_up w (advance 1 s) H1)).
    cbv beta zeta. cbn [db advance].
    now rewrite (bind_return _ _ _ _ _ Hloop).
Qed.

(** X8.  No automation can fail the run.  Once the connection and the query
    of the active automations have succeeded, [checkComments] never reports
    a failure, whatever the remote calls and the later store operations do:
    if it returns, it returns a success whose [automationsProcessed] is the
    number of active automations, those skipped or failed included.  With
    the store up all along it does return. *)
Theorem run_is_isolated w s :
  store_up w (next s) = true ->
  store_up w (1 + next s) = true ->
  (forall r,
     fst (checkComments w s) = Return r ->
     r = Success (length (filter Automation.active (automations (db s)))) 0 0)
  /\ (store_reliable w ->
      fst (checkComments w s)
      = Return (Success (length (filter Automation.active
                                   (automations (db s)))) 0 0)).
Proof.
  intros H0 H1. destruct (checkComments_connected w s H0 H1) as [s' ->].
  split.
  - intros r. destruct (store_up w (next s')); cbn; [| discriminate].
    now intros [= <-].
  - intros Hup. now rewrite Hup.
Qed.

Lemma run_is_isolated_witness :
  fst (checkComments revoked (start (store0 (rule "any" None None) [])))
  = Return (Success 1 0 0).
Proof.
  apply (proj2 (run_is_isolated revoked
                  (start (store0 (rule "any" None None) []))
                  eq_refl eq_refl)).
  intro t. reflexivity.
Defined.

(** X9.  When the connection to the store fails, or the query of the
    automations does, the run reports the failure and does nothing else
    than closing the connection; when the closing fails as well, the run
    throws instead of reporting. *)
Theorem connection_failure w s :
  (store_up w (next s) = false ->
   store_up w (1 + next s) = true ->
   checkComments w s = (Return (Failure "Failed to check comments"), advance 2 s))
  /\ (store_up w (next s) = true ->
      store_up w (1 + next s) = false ->
      store_up w (2 + next s) = true ->
      checkComments w s
      = (Return (Failure "Failed to check comments"), advance 3 s))
  /\ (store_up w (next s) = false ->
      store_up w (1 + next s) = false ->
      checkComments w s = (Throw (store_error w (1 + next s)), advance 2 s)).
Proof.
  unfold checkComments, finally, find_active_automations, advance.
  split; [| split]; intros; unfold_effects; cbn in *;
    repeat match goal with
           | H : store_up w _ = _ |- _ => rewrite H; cbn
           end;
    reflexivity.
Qed.

Lemma connection_failure_witness :
  checkComments (store_down_at 0 (calm []))
    (start (store0 (rule "any" None None) []))
  = (Return (Failure "Failed to check comments"),
     advance 2 (start (store0 (rule "any" None None) [])))
  /\ checkComments (store_down_at 1 (calm []))
       (start (store0 (rule "any" None None) []))
     = (Return (Failure "Failed to check comments"),
        advance 3 (start (store0 (rule "any" None None) []))).
Proof.
  split.
  - apply (proj1 (connection_failure (store_down_at 0 (calm []))
                    (start (store0 (rule "any" None None) []))));
      reflexivity.
  - apply (proj1 (proj2 (connection_failure (store_down_at 1 (calm []))
                           (start (store0 (rule "any" None None) [])))));
      reflexivity.
Defined.

(** ** One automation *)

Lemma findOne_account_up w id s :
  store_up w (next s) = true ->
  findOne_account w id s
  = (Return (find (fun a => String.eqb (Account._id a) id)
               (instagramAccounts (db s))),
     advance 1 s).
Proof. intros H. unfold findOne_account. unfold_effects. cbn. now rewrite H. Qed.

Lemma findOne_post_up w id s :
  store_up w (next s) = true ->
  findOne_post w id s
  = (Return (find (fun p => String.eqb (Post._id p) id) (posts (db s))),
     advance 1 s).
Proof. intros H. unfold findOne_post. unfold_effects. cbn. now rewrite H. Qed.

Lemma truthy_some t : t <> EmptyString -> truthy (Some t) = Some t.
Proof.
  intros H. cbn. destruct (String.eqb_spec t EmptyString);
    [contradiction | reflexivity].
Qed.

(** The start of [processAutomation] for an account on file whose token
    passes the probe: the rest runs with the token in the account object. *)
Lemma processAutomation_enters w a acc tp ts s :
  store_up w (next s) = true ->
  store_up w (1 + next s) = true ->
  find (fun x => String.eqb (Account._id x) (Automation.instagramAccountId a))
    (instagramAccounts (db s)) = Some acc ->
  me w (2 + next s) (Account.accessToken acc) = Ok tt ->
  processAutomation w a tp ts s
  = try_catch
      (match truthy (Some (Account.accessToken acc)) with
       | None => ret tt
       | Some validToken =>
         match truthy (Automation.postId a) with
         | None =>
           posts <- find_posts w (Account._id acc) ;;
           for_of posts
             (fun post =>
                processPostComments w post a (set_accessToken validToken acc)
                  tp ts)
         | Some postId =>
           post <- findOne_post w postId ;;
           match post with
           | None => ret tt
           | Some post =>
             processPostComments w post a (set_accessToken validToken acc)
               tp ts
           end
         end
       end)
      (fun _ => ret tt)
      (mkState (3 + next s) (db s)
         (trace s ++ [CallMe (Account.accessToken acc)]) (frame s)).
Proof.
  intros H0 H1 Hacc Hprobe.
  assert (Account._id acc = Automation.instagramAccountId a) as Hid
    by (apply find_some in Hacc; now apply String.eqb_eq).
  unfold processAutomation, try_catch.
  rewrite (bind_return _ _ _ _ _ (findOne_account_up w _ s H0)), Hacc.
  rewrite (bind_return _ _ _ (Some (Account.accessToken acc))
             (mkState (3 + next s) (db s)
                (trace s ++ [CallMe (Account.accessToken acc)]) (frame s))).
  - reflexivity.
  - apply (token_probe_ok w (Account._id acc) acc (advance 1 s)).
    + exact H1.
    + cbn. now rewrite Hid.
    + exact Hprobe.
Qed.

(** X10.  What is missing stops an automation quietly.  When its account is
    not on file, nothing happens beyond the query.  When the token of the
    account is the empty string, the automation is skipped although the
    probe accepted the token.  When its target post is not on file, nothing
    is fetched.  In no case is the checkpoint written or anything thrown. *)
Theorem missing_stops_automation w a tp ts s :
  store_up w (next s) = true ->
  (find (fun x => String.eqb (Account._id x) (Automation.instagramAccountId a))
     (instagramAccounts (db s)) = None ->
   processAutomation w a tp ts s = (Return tt, advance 1 s))
  /\ (forall acc,
        find (fun x => String.eqb (Account._id x)
                         (Automation.instagramAccountId a))
          (instagramAccounts (db s)) = Some acc ->
        store_up w (1 + next s) = true ->
        me w (2 + next s) (Account.accessToken acc) = Ok tt ->
        (Account.accessToken acc = EmptyString ->
         processAutomation w a tp ts s
         = (Return tt,
            mkState (3 + next s) (db s)
              (trace s ++ [CallMe (Account.accessToken acc)]) (frame s)))
        /\ (Account.accessToken acc <> EmptyString ->
            forall postId,
              truthy (Automation.postId a) = Some postId ->
              store_up w (3 + next s) = true ->
              find (fun p => String.eqb (Post._id p) postId) (posts (db s))
              = None ->
              processAutomation w a tp ts s
              = (Return tt,
                 mkState (4 + next s) (db s)
                   (trace s ++ [CallMe (Account.accessToken acc)]) (frame s)))).
Proof.
  intros H0. split.
  - intros Hacc. unfold processAutomation, try_catch.
    now rewrite (bind_return _ _ _ _ _ (findOne_account_up w _ s H0)), Hacc.
  - intros acc Hacc H1 Hprobe. split.
    + intros He.
      rewrite (processAutomation_enters w a acc tp ts s H0 H1 Hacc Hprobe).
      rewrite He. reflexivity.
    + intros Hne postId Hp H3 Hpost.
      rewrite (processAutomation_enters w a acc tp ts s H0 H1 Hacc Hprobe).
      rewrite (truthy_some _ Hne), Hp. unfold try_catch.
      rewrite (bind_return _ _ _ _ _
                 (findOne_post_up w postId
                    (mkState (3 + next s) (db s)
                       (trace s ++ [CallMe (Account.accessToken acc)])
                       (frame s)) H3)).
      cbn [db]. rewrite Hpost. reflexivity.
Qed.

Lemma missing_stops_automation_witness :
  processAutomation (calm []) (rule "any" None None) 0 0
    (start (mkStore [] [rule "any" None None] [post1] [] []))
  = (Return tt, advance 1 (start (mkStore [] [rule "any" None None] [post1] [] [])))
  /\ trace (snd (processAutomation (calm []) (rule "any" (Some "p9") None) 0 0
                   (start (store0 (rule "any" (Some "p9") None) []))))
     = [CallMe "token-1"].
Proof.
  split.
  - apply (proj1 (missing_stops_automation (calm []) (rule "any" None None) 0 0
                    (start (mkStore [] [rule "any" None None] [post1] [] []))
                    eq_refl)).
    reflexivity.
  - rewrite (proj2 (proj2 (missing_stops_automation (calm [])
                             (rule "any" (Some "p9") None) 0 0
                             (start (store0 (rule "any" (Some "p9") None) []))
                             eq_refl)
                      acct eq_refl eq_refl eq_refl)
               ltac:(discriminate) "p9"%string eq_refl eq_refl eq_refl).
    reflexivity.
Defined.

(** X11.  An automation with a target post, on an account on file whose
    token passes the probe, with the store up: one run fetches the comments
    of that post only, since the [lastChecked] the automation was loaded
    with, and writes the checkpoint once; the other posts of the account
    are not fetched. *)
Theorem targeted_pass w a acc postId post tp ts s :
  store_reliable w ->
  truthy (Automation.postId a) = Some postId ->
  find (fun x => String.eqb (Account._id x) (Automation.instagramAccountId a))
    (instagramAccounts (db s)) = Some acc ->
  me w (2 + next s) (Account.accessToken acc) = Ok tt ->
  Account.accessToken acc <> EmptyString ->
  find (fun p => String.eqb (Post._id p) postId) (posts (db s)) = Some post ->
  fst (processAutomation w a tp ts s) = Return tt
  /\ fetched (trace (snd (processAutomation w a tp ts s)))
     = fetched (trace s) ++ [(Post.instagramId post, since_of a)]
  /\ checkpoint_writes (Automation._id a)
       (trace (snd (processAutomation w a tp ts s)))
     = S (checkpoint_writes (Automation._id a) (trace s)).
Proof.
  intros Hup Hp Hacc Hprobe Hne Hpost.
  rewrite (processAutomation_enters w a acc tp ts s (Hup _) (Hup _) Hacc Hprobe).
  rewrite (truthy_some _ Hne), Hp.
  destruct (processPostComments_pass w post a
              (set_accessToken (Account.accessToken acc) acc) tp ts
              (advance 1 (mkState (3 + next s) (db s)
                            (trace s ++ [CallMe (Account.accessToken acc)])
                            (frame s)))
              Hup) as [s' [Hrun Hmarks]].
  rewrite (try_catch_return _ _ _ tt s').
  - cbn [fst snd]. unfold pass_marks in Hmarks. cbn [trace advance] in Hmarks.
    rewrite checkpoint_writes_app, fetched_app in Hmarks. cbn in Hmarks.
    rewrite Nat.add_0_r, app_nil_r in Hmarks.
    inversion Hmarks as [[Hc Hf]]. now repeat split.
  - rewrite (bind_return _ _ _ _ _
               (findOne_post_up w postId
                  (mkState (3 + next s) (db s)
                     (trace s ++ [CallMe (Account.accessToken acc)])
                     (frame s)) (Hup _))).
    cbn [db]. rewrite Hpost. exact Hrun.
Qed.

Lemma targeted_pass_witness :
  fetched (trace (snd (processAutomation (calm []) (rule "any" (Some "p2") None)
                         0 0
                         (start (store0 (rule "any" (Some "p2") None) [])))))
  = [("ig-p2"%string, 0)]
  /\ checkpoint_writes "auto1"
       (trace (snd (processAutomation (calm []) (rule "any" (Some "p2") None)
                      0 0
                      (start (store0 (rule "any" (Some "p2") None) [])))))
     = 1%nat.
Proof.
  destruct (targeted_pass (calm []) (rule "any" (Some "p2") None) acct "p2"
              post2 0 0 (start (store0 (rule "any" (Some "p2") None) []))
              (fun _ => eq_refl) eq_refl eq_refl eq_refl ltac:(discriminate)
              eq_refl) as [_ [Hf Hc]].
  split; [exact Hf | exact Hc].
Defined.

(** ** A pass that is cut short *)



Lemma getPostComments_ok w tok pid since data s :
  comments w (next s) tok pid since = Ok data ->
  getPostComments w tok pid since s
  = (Return (map to_comment data),
     mkState (1 + next s) (db s) (trace s ++ [CallComments tok pid since])
       (frame s)).
Proof.
  intros H. unfold getPostComments. unfold_effects. cbn. now rewrite H.
Qed.


Lemma map_update_first {A B} (g : A -> B) (p : A -> bool) (f : A -> A) l :
  (forall x, g (f x) = g x) -> map g (update_first p f l) = map g l.
Proof.
  intros H. induction l as [| y l IH]; [reflexivity |]. cbn.
  destruct (p y); cbn; [now rewrite H | now rewrite IH].
Qed.





(** ** What a run never does *)

Ltac same_configuration :=
  unfold stable, configuration; cbn;
  rewrite ?map_update_first by (intro; reflexivity); reflexivity.

(** X13.  A run leaves the configuration alone: whatever the worlds answer,
    [checkComments] changes no post, no setting of any automation (it
    writes only [lastChecked], [lastTriggered] and [totalDMsSent]) and no
    identity of any account (it writes only the token, its expiry and the
    date of its refresh); it adds and removes none of them. *)
Theorem run_keeps_configuration w s :
  configuration (snd (checkComments w s)) = configuration s.
Proof.
  revert s. change (keeps (stable configuration) (checkComments w)).
  keeps_all same_configuration.
Qed.

#[export] Instance appends_preorder : PreOrder appends.
Proof.
  split.
  - intro s. exists [], []. now rewrite !app_nil_r.
  - intros s1 s2 s3 [d1 [r1 [Hd1 Hr1]]] [d2 [r2 [Hd2 Hr2]]].
    exists (d1 ++ d2), (r1 ++ r2).
    now rewrite Hd2, Hr2, Hd1, Hr1, !app_assoc.
Qed.

Ltac appended :=
  unfold appends, ledger; cbn; do 2 eexists;
  split; first [ reflexivity | symmetry; apply app_nil_r ].

(** X14.  The two logs are append only: a run deletes and rewrites no
    record of [directMessages] or [commentReplies]; the records on file
    before the run are on file after it, unchanged and in the same order,
    before the new ones. *)
Theorem run_appends_to_logs w s :
  exists dms replies,
    directMessages (db (snd (checkComments w s)))
    = directMessages (db s) ++ dms
    /\ commentReplies (db (snd (checkComments w s)))
       = commentReplies (db s) ++ replies.
Proof.
  revert s. change (keeps appends (checkComments w)).
  keeps_all appended.
Qed.

#[export] Instance stats_behind_preorder id : PreOrder (stats_behind id).
Proof.
  split.
  - intro s. unfold stats_behind. lia.
  - intros s1 s2 s3. unfold stats_behind. lia.
Qed.

Ltac counted :=
  unfold stats_behind, stats_updates, deliveries; cbn;
  rewrite ?filter_app; cbn; rewrite ?length_app; cbn;
  repeat (match goal with
          | |- context [String.eqb ?x ?y] => destruct (String.eqb x y); cbn
          end);
  lia.

Lemma replyStep_counts id w a ia c : keeps (stats_behind id) (replyStep w a ia c).
Proof. keeps_all counted. Qed.

Lemma dmStep_counts id w a ia c : keeps (stats_behind id) (dmStep w a ia c).
Proof.
  intro s.
  unfold dmStep, sendAndLog, logFailure, sendDirectMessageWithButton,
    sendDirectMessage, send.
  run_effects; counted.
Qed.

Lemma processComment_counts id w a ia c :
  keeps (stats_behind id) (processComment w a ia c).
Proof.
  intro s. rewrite processComment_gate.
  destruct (negb (triggerMatched w a c)); [reflexivity |].
  destruct (negb (store_up w (next s))); [unfold stats_behind, stats_updates, deliveries; cbn; lia |].
  destruct (find _ (ledger s)); [unfold stats_behind, stats_updates, deliveries; cbn; lia |].
  destruct (negb (store_up w (S (S (next s)))));
    [unfold stats_behind, stats_updates, deliveries; cbn; lia |].
  destruct (window_count w a s >=? ceiling a);
    [unfold stats_behind, stats_updates, deliveries; cbn; lia |].
  assert (stats_behind id s (advance 3 s)) as H0
    by (unfold stats_behind, stats_updates, deliveries; cbn; lia).
  etransitivity; [exact H0 |].
  apply (keeps_bind (stats_behind id));
    [apply replyStep_counts | intros _; apply dmStep_counts].
Qed.

#[export] Hint Resolve processComment_counts : keeps_db.

(** X15.  The counter never runs ahead of the ledger: in any run, in any
    world, the updates of an automation's [totalDMsSent] are at most as many
    as the records with status [sent] logged for that automation (they are
    fewer when the update fails after the record is in). *)
Theorem counter_follows_ledger w s id :
  (stats_updates id (trace (snd (checkComments w s)))
   + deliveries id (trace s)
   <= deliveries id (trace (snd (checkComments w s)))
      + stats_updates id (trace s))%nat.
Proof.
  revert s. change (keeps (stats_behind id) (checkComments w)).
  keeps_all counted.
Qed.

(** ** The token of a pass *)

Lemma try_catch_bind {A B} (m : M A) (k : A -> M B) (h : string -> M B) s a s1 :
  m s = (Return a, s1) -> try_catch (bind m k) h s = try_catch (k a) h s1.
Proof. intros H. unfold try_catch, bind. now rewrite H. Qed.

Lemma try_catch_state {A} (m : M A) (a : A) s :
  snd (try_catch m (fun _ => ret a) s) = snd (m s).
Proof. unfold try_catch. now destruct (m s) as [[x | e] s1]. Qed.

(** A pass begins with the fetch, made with the token of the account object
    it is given. *)
Lemma processPostComments_first_call w post a ia tp ts s :
  exists l,
    trace (snd (processPostComments w post a ia tp ts s))
    = trace s
      ++ CallComments (Account.accessToken ia) (Post.instagramId post)
           (since_of a) :: l.
Proof.
  unfold processPostComments. fold (since_of a).
  rewrite (bind_return _ _ s tt (mkState (next s) (db s) (trace s) (tp, ts)))
    by reflexivity.
  destruct (getPostComments_effect w (Account.accessToken ia)
              (Post.instagramId post) (since_of a)
              (mkState (next s) (db s) (trace s) (tp, ts))) as [cs Hcs].
  rewrite (try_catch_bind _ _ _ _ _ _ Hcs).
  match goal with
  | |- context [try_catch ?m ?h ?s1] =>
    assert (keeps trace_extends (try_catch m h)) as Hk
      by keeps_all longer_trace;
    destruct (Hk s1) as [l Hl]; rewrite Hl
  end.
  cbn [trace]. rewrite <- app_assoc. now exists l.
Qed.

(** X16.  A token refreshed at the start of an automation is the one the
    automation works with: when the probe of the stored token fails and the
    refresh succeeds, the account is updated with the new token first, and
    the comments of the target post are then fetched with the new token,
    not with the stored one. *)
Theorem refreshed_token_is_used w a acc postId post tp ts s token ttl :
  store_reliable w ->
  truthy (Automation.postId a) = Some postId ->
  find (fun x => String.eqb (Account._id x) (Automation.instagramAccountId a))
    (instagramAccounts (db s)) = Some acc ->
  me w (2 + next s) (Account.accessToken acc) <> Ok tt ->
  refresh_access_token w (3 + next s) (Account.accessToken acc)
  = Ok (token, ttl) ->
  token <> EmptyString ->
  find (fun p => String.eqb (Post._id p) postId) (posts (db s)) = Some post ->
  exists l,
    trace (snd (processAutomation w a tp ts s))
    = trace s
      ++ [CallMe (Account.accessToken acc);
          CallRefresh (Account.accessToken acc);
          UpdateAccount (Account._id acc) token
            (newExpiryDate w (clock w (4 + next s)) ttl) (clock w (5 + next s));
          CallComments token (Post.instagramId post) (since_of a)]
      ++ l.
Proof.
  intros Hup Hp Hacc Hprobe Hrefresh Hne Hpost.
  assert (Account._id acc = Automation.instagramAccountId a) as Hid
    by (apply find_some in Hacc; now apply String.eqb_eq).
  unfold processAutomation. rewrite try_catch_state.
  rewrite (bind_return _ _ _ _ _ (findOne_account_up w _ s (Hup _))), Hacc.
  assert (find (fun x => String.eqb (Account._id x) (Account._id acc))
            (instagramAccounts (db (advance 1 s))) = Some acc) as Hacc'
    by (cbn; now rewrite Hid).
  rewrite (bind_return _ _ _ _ _
             (token_refreshed w (Account._id acc) acc (advance 1 s) (Hup _)
                Hacc' token ttl Hprobe Hrefresh (Hup _))).
  rewrite (truthy_some _ Hne), Hp.
  match goal with
  | |- context [bind (findOne_post w postId) _ ?s2] =>
    assert (find (fun p => String.eqb (Post._id p) postId) (posts (db s2))
            = Some post) as Hpost' by exact Hpost;
    rewrite (bind_return _ _ _ _ _ (findOne_post_up w postId s2 (Hup _)));
    rewrite Hpost';
    destruct (processPostComments_first_call w post a
                (set_accessToken token acc) tp ts (advance 1 s2)) as [l Hl]
  end.
  rewrite Hl. exists l. cbn. rewrite <- !app_assoc. reflexivity.
Qed.

Lemma refreshed_token_is_used_witness :
  exists l,
    trace (snd (processAutomation expired (rule "any" (Some "p1") None) 0 0
                  (start (store0 (rule "any" (Some "p1") None) []))))
    = [CallMe "token-1"; CallRefresh "token-1";
       UpdateAccount "acc1" "fresh-token" 1705184004000 1700000005000;
       CallComments "fresh-token" "ig-p1" 0]
      ++ l.
Proof.
  exact (refreshed_token_is_used expired (rule "any" (Some "p1") None) acct
           "p1" post1 0 0 (start (store0 (rule "any" (Some "p1") None) []))
           "fresh-token" 5184000 (fun _ => eq_refl) eq_refl eq_refl
           ltac:(discriminate) eq_refl ltac:(discriminate) eq_refl).
Defined.

(** ** The rate limit over a pass *)

#[export] Instance within_ceiling_preorder w a : PreOrder (within_ceiling w a).
Proof.
  split.
  - intros s H. split; [exact H | lia].
  - intros s1 s2 s3 H12 H23 H1. destruct (H12 H1) as [H2 Hn2].
    destruct (H23 H2) as [H3 Hn3]. split; [exact H3 | lia].
Qed.







(** ** Errors inside the token flow *)

(** X18.  [getValidTokenForAccount] answers [null] to every failure and
    throws none: when the store fails at the query of the account, when the
    account is not on file (no remote call is made), and when the refresh
    succeeds but the update of the account fails; in that last case the
    new token is dropped, neither stored nor returned. *)
Theorem token_errors_give_null w id s :
  (store_up w (next s) = false ->
   getValidTokenForAccount w id s = (Return None, advance 1 s))
  /\ (store_up w (next s) = true ->
      find (fun a => String.eqb (Account._id a) id) (instagramAccounts (db s))
      = None ->
      getValidTokenForAccount w id s = (Return None, advance 1 s))
  /\ (forall acc token ttl,
        store_up w (next s) = true ->
        find (fun a => String.eqb (Account._id a) id)
          (instagramAccounts (db s)) = Some acc ->
        me w (1 + next s) (Account.accessToken acc) <> Ok tt ->
        refresh_access_token w (2 + next s) (Account.accessToken acc)
        = Ok (token, ttl) ->
        store_up w (5 + next s) = false ->
        getValidTokenForAccount w id s
        = (Return None,
           mkState (6 + next s) (db s)
             (trace s ++ [CallMe (Account.accessToken acc);
                          CallRefresh (Account.accessToken acc)])
             (frame s))).
Proof.
  unfold getValidTokenForAccount, refreshInstagramToken, advance.
  split; [| split].
  - intros H. unfold_effects. cbn. now rewrite H.
  - intros H Hf. unfold_effects. cbn. rewrite H. cbn. now rewrite Hf.
  - intros acc token ttl H Hf Hp Hr Hs. unfold_effects. cbn in *.
    rewrite H. cbn. rewrite Hf. cbn.
    destruct (me w (S (next s)) (Account.accessToken acc)) as [e | m | []];
      [| | contradiction]; cbn; rewrite Hr; cbn; rewrite Hs; cbn;
      now rewrite <- !app_assoc.
Qed.

Lemma token_errors_give_null_witness :
  getValidTokenForAccount (store_down_at 0 (calm [])) "acc1"
    (start (store0 (rule "any" None None) []))
  = (Return None, advance 1 (start (store0 (rule "any" None None) [])))
  /\ getValidTokenForAccount (calm []) "nobody"
       (start (store0 (rule "any" None None) []))
     = (Return None, advance 1 (start (store0 (rule "any" None None) [])))
  /\ fst (getValidTokenForAccount (store_down_at 5 expired) "acc1"
            (start (store0 (rule "any" None None) [])))
     = Return None.
Proof.
  split; [| split].
  - apply (proj1 (token_errors_give_null (store_down_at 0 (calm [])) "acc1"
                    (start (store0 (rule "any" None None) [])))).
    reflexivity.
  - apply (proj1 (proj2 (token_errors_give_null (calm []) "nobody"
                           (start (store0 (rule "any" None None) []))))).
    + reflexivity.
    + reflexivity.
  - rewrite (proj2 (proj2 (token_errors_give_null (store_down_at 5 expired)
                             "acc1" (start (store0 (rule "any" None None) []))))
               acct "fresh-token"%string 5184000 eq_refl eq_refl
               ltac:(discriminate) eq_refl eq_refl).
    reflexivity.
Defined.

(** ** The expiry of a refreshed token *)

(** X19.  The expiry that a refresh stores is computed in local time: it is
    [now + ttl] shifted by the difference between the offset of the server's
    zone at [now] and its offset at the local time reached.  On a server
    whose zone changes its offset between the two (daylight saving), the
    stored expiry is off [now + ttl] by the change. *)
Theorem stored_expiry_follows_local_time w id acc s token ttl :
  store_up w (next s) = true ->
  find (fun a => String.eqb (Account._id a) id) (instagramAccounts (db s))
  = Some acc ->
  me w (1 + next s) (Account.accessToken acc) <> Ok tt ->
  refresh_access_token w (2 + next s) (Account.accessToken acc)
  = Ok (token, ttl) ->
  store_up w (5 + next s) = true ->
  In (UpdateAccount (Account._id acc) token
        (clock w (3 + next s) + ttl * 1000
         + (localTZA w (clock w (3 + next s)) true
            - localTZA w
                (clock w (3 + next s) + localTZA w (clock w (3 + next s)) true
                 + ttl * 1000) false))
        (clock w (4 + next s)))
    (trace (snd (getValidTokenForAccount w id s))).
Proof.
  intros H0 Hf Hp Hr Hs.
  rewrite (token_refreshed w id acc s H0 Hf token ttl Hp Hr Hs).
  rewrite <- newExpiryDate_local. cbn [snd trace].
  apply in_or_app. right. right. right. now left.
Qed.

Lemma stored_expiry_follows_local_time_witness :
  In (UpdateAccount "acc1" "fresh-token"
        (1700000003000 + 5184000 * 1000 + (3600000 - 7200000)) 1700000004000)
    (trace (snd (getValidTokenForAccount zone_change "acc1"
                   (start (store0 (rule "any" None None) []))))).
Proof.
  exact (stored_expiry_follows_local_time zone_change "acc1" acct
           (start (store0 (rule "any" None None) [])) "fresh-token" 5184000
           eq_refl eq_refl ltac:(discriminate) eq_refl eq_refl).
Defined.
